(** * fundgrube-notify: the history store, the novelty filter and the notifier

    A shallow embedding of [fundgrube.py].  Values decoded from JSON keep
    their dynamic type ([pyval]); exceptions are explicit ([result]); the
    files, the environment variables, the clock, the network and the mail
    transport are explicit state or explicit arguments. *)

From stdpp Require Import gmap strings list fin_maps pretty.
From Stdlib Require Import ZArith Ascii String.

Open Scope string_scope.
Open Scope list_scope.

(** ** Python values *)

(** What [json.loads] can return.  A float is kept as the text [repr] prints
    for it: the program never computes with one, it only tests and prints
    it.  A dict is the list of its items in insertion order; the keys of a
    decoded JSON object are distinct strings. *)
#[warnings="-register-all"]
Inductive pyval : Type :=
| PNone
| PBool (b : bool)
| PInt (n : Z)
| PFloat (r : string)
| PStr (s : string)
| PList (xs : list pyval)
| PDict (kvs : list (string * pyval)).

(** [bool(v)] *)
Definition truthy (v : pyval) : bool :=
  match v with
  | PNone => false
  | PBool b => b
  | PInt n => negb (n =? 0)%Z
  | PFloat r => negb (String.eqb r "0.0" || String.eqb r "-0.0")
  | PStr s => negb (String.eqb s "")
  | PList xs => match xs with [] => false | _ => true end
  | PDict kvs => match kvs with [] => false | _ => true end
  end.

Definition quote1 : ascii := "'"%char.
Definition quote2 : ascii := ascii_of_nat 34.
Definition backslash : ascii := ascii_of_nat 92.

Definition hex_lower (n : nat) : ascii :=
  ascii_of_nat (if (n <? 10)%nat then 48 + n else 87 + n)%nat.

Definition has_char (c : ascii) (s : string) : bool :=
  existsb (Ascii.eqb c) (list_ascii_of_string s).

(** One character of [repr] of a [str] delimited by [q] (ASCII rules; bytes
    of a multi-byte character are copied). *)
Definition repr_char (q c : ascii) : string :=
  let n := nat_of_ascii c in
  if Ascii.eqb c backslash then String backslash (String backslash "")
  else if Ascii.eqb c q then String backslash (String q "")
  else if (n =? 9)%nat then String backslash "t"
  else if (n =? 10)%nat then String backslash "n"
  else if (n =? 13)%nat then String backslash "r"
  else if ((n <? 32) || (n =? 127))%nat then
    String backslash (String "x" (String (hex_lower (n / 16)%nat) (String (hex_lower (n mod 16)%nat) "")))
  else String c "".

Definition repr_str (s : string) : string :=
  let q := if has_char quote1 s && negb (has_char quote2 s) then quote2 else quote1 in
  String q (String.concat "" (map (repr_char q) (list_ascii_of_string s))) +:+ String q "".

(** [repr(v)] *)
Fixpoint py_repr (v : pyval) : string :=
  match v with
  | PNone => "None"
  | PBool true => "True"
  | PBool false => "False"
  | PInt n => pretty n
  | PFloat r => r
  | PStr s => repr_str s
  | PList xs => "[" +:+ String.concat ", " (map py_repr xs) +:+ "]"
  | PDict kvs =>
      "{" +:+ String.concat ", "
                (map (λ kv, repr_str (fst kv) +:+ ": " +:+ py_repr (snd kv)) kvs) +:+ "}"
  end.

(** [str(v)], which is also what an f-string field prints *)
Definition py_str (v : pyval) : string :=
  match v with
  | PStr s => s
  | _ => py_repr v
  end.

(** ** Exceptions *)

(** An exception object: the name of its class and its arguments.  As a
    condition it is true, like every instance of the classes the program
    meets. *)
Record exn : Type := Exn { class_name : string; args : list pyval }.

(** [repr(error)] *)
Definition exn_repr (e : exn) : string :=
  class_name e +:+ "(" +:+ String.concat ", " (map py_repr (args e)) +:+ ")".

Definition TypeError : exn := Exn "TypeError" [].
Definition AttributeError : exn := Exn "AttributeError" [].
Definition KeyError (k : string) : exn := Exn "KeyError" [PStr k].
Definition ValueError : exn := Exn "ValueError" [].
Definition FileNotFoundError : exn := Exn "FileNotFoundError" [].

Inductive result (A : Type) : Type :=
| Ok (a : A)
| Raise (e : exn).
Arguments Ok {A} a.
Arguments Raise {A} e.

Global Instance result_ret : MRet result := λ A a, Ok a.
Global Instance result_bind : MBind result := λ A B f r,
  match r with
  | Ok a => f a
  | Raise e => Raise e
  end.

(** A [for] loop whose body may raise: the first exception ends the loop. *)
Fixpoint for_each {A B : Type} (body : A → B → result A) (acc : A) (l : list B) : result A :=
  match l with
  | [] => Ok acc
  | x :: l' => acc' ← body acc x; for_each body acc' l'
  end.

(** [d.get(k)] on a dict, [None] when the key is missing *)
Fixpoint dict_lookup (k : string) (kvs : list (string * pyval)) : option pyval :=
  match kvs with
  | [] => None
  | (k', v) :: kvs' => if String.eqb k k' then Some v else dict_lookup k kvs'
  end.

Definition dict_get (k : string) (kvs : list (string * pyval)) : pyval :=
  default PNone (dict_lookup k kvs).

(** ** Posting *)

Record Posting : Type := mkPosting {
  base_url : string;
  posting_id : pyval;
  pim_id : pyval;
  name : pyval;
  original_url : pyval;
  posting_text : pyval;
  price : pyval;
  shipping_cost : pyval;
  discount_in_percent : pyval;
  outlet_id : pyval
}.

(** A required keyword parameter: a missing key is a [TypeError]. *)
Definition required (k : string) (kvs : list (string * pyval)) : result pyval :=
  match dict_lookup k kvs with
  | Some v => Ok v
  | None => Raise TypeError
  end.

(** The call [Posting] with the items of [post] and [base_url] as keyword
    arguments.  [post] has to be a mapping; a key [base_url] in it is passed
    twice and a key [self] collides with the receiver; every named parameter
    of [__init__] has to be there; other keys go to [kwargs]. *)
Definition Posting_init (post : pyval) (base : string) : result Posting :=
  match post with
  | PDict kvs =>
      if bool_decide (is_Some (dict_lookup "base_url" kvs)) then Raise TypeError
      else if bool_decide (is_Some (dict_lookup "self" kvs)) then Raise TypeError
      else
        posting_id ← required "posting_id" kvs;
        pim_id ← required "pim_id" kvs;
        name ← required "name" kvs;
        original_url ← required "original_url" kvs;
        posting_text ← required "posting_text" kvs;
        price ← required "price" kvs;
        shipping_cost ← required "shipping_cost" kvs;
        discount_in_percent ← required "discount_in_percent" kvs;
        outlet ← required "outlet" kvs;
        outlet_id ← (if truthy outlet then
                       match outlet with
                       | PDict o => Ok (dict_get "id" o)
                       | _ => Raise AttributeError
                       end
                     else Ok PNone);
        Ok (mkPosting base posting_id pim_id name original_url posting_text
                      price shipping_cost discount_in_percent outlet_id)
  | _ => Raise TypeError
  end.

Definition get_direct_url (p : Posting) : string :=
  base_url p +:+ "?outletIds=" +:+ py_str (outlet_id p) +:+ "&text=" +:+ py_str (pim_id p).

(** [Posting.__str__] *)
Definition Posting_str (p : Posting) : string :=
  py_str (name p) +:+ " - " +:+ py_str (price p) +:+ " (📦 " +:+ py_str (shipping_cost p)
  +:+ ") (" +:+ py_str (discount_in_percent p) +:+ " %)".

(** ** GameFilter *)

Record GameFilter : Type := mkGameFilter { search : pyval; filter_price : pyval }.

(** ** Timestamps *)

(** A [datetime] to the second: the clock is only ever printed with
    [strftime('%Y-%m-%d %H:%M:%S')], and [strptime] with that format returns
    no finer value. *)
Record datetime : Type := mkDatetime {
  year : nat; month : nat; day : nat;
  hour : nat; minute : nat; second : nat
}.

Definition is_leap (y : nat) : bool :=
  ((y mod 4 =? 0) && (negb (y mod 100 =? 0) || (y mod 400 =? 0)))%nat.

Definition days_in_month (y m : nat) : nat :=
  match m with
  | 2 => if is_leap y then 29 else 28
  | 4 | 6 | 9 | 11 => 30
  | _ => 31
  end.

(** The values the [datetime] constructor accepts. *)
Definition valid_datetime (d : datetime) : bool :=
  ((1 <=? year d) && (year d <? 100 * 100) && (1 <=? month d) && (month d <=? 12)
   && (1 <=? day d) && (day d <=? days_in_month (year d) (month d))
   && (hour d <? 24) && (minute d <? 60) && (second d <? 60))%nat.

Definition digit_char (n : nat) : ascii := ascii_of_nat (48 + n).

Definition digit_val (c : ascii) : option nat :=
  let n := nat_of_ascii c in
  if ((48 <=? n) && (n <=? 57))%nat then Some (n - 48)%nat else None.

Definition pad2 (n : nat) : list ascii :=
  [digit_char (n / 10 mod 10); digit_char (n mod 10)].

Definition pad4 (n : nat) : list ascii :=
  digit_char (n / 1000 mod 10) :: digit_char (n / 100 mod 10) :: pad2 n.

(** [d.strftime('%Y-%m-%d %H:%M:%S')].  The year is printed on four digits,
    which is what every platform prints from the year 1000 on. *)
Definition strftime (d : datetime) : string :=
  string_of_list_ascii
    (pad4 (year d) ++ "-"%char :: pad2 (month d) ++ "-"%char :: pad2 (day d) ++ " "%char ::
     pad2 (hour d) ++ ":"%char :: pad2 (minute d) ++ ":"%char :: pad2 (second d)).

(** [strptime] turns the format into a regular expression: four digits for
    [%Y], one or two digits for the other fields (the day may also be a
    space and a digit), one or more white-space characters for the space,
    and nothing may follow.  Every field is followed by a character that is
    no digit, so taking two digits whenever there are two and checking the
    value afterwards accepts the same strings.  Digits and white space are
    the ASCII ones: a string with digits or spaces of another script, which
    [strptime] reads as well, is rejected here. *)
Definition is_space (c : ascii) : bool :=
  let n := nat_of_ascii c in
  (((9 <=? n) && (n <=? 13)) || ((28 <=? n) && (n <=? 32)))%nat.

Definition digits4 (s : list ascii) : option (nat * list ascii) :=
  match s with
  | a :: b :: c :: d :: s' =>
      a ← digit_val a; b ← digit_val b; c ← digit_val c; d ← digit_val d;
      Some (1000 * a + 100 * b + 10 * c + d, s')%nat
  | _ => None
  end.

Definition digits12 (s : list ascii) : option (nat * list ascii) :=
  match s with
  | a :: s1 =>
      x ← digit_val a;
      match s1 with
      | b :: s2 =>
          match digit_val b with
          | Some y => Some (10 * x + y, s2)%nat
          | None => Some (x, s1)
          end
      | [] => Some (x, s1)
      end
  | [] => None
  end.

Definition day_field (s : list ascii) : option (nat * list ascii) :=
  match s with
  | c :: s1 =>
      if Ascii.eqb c " " then
        match s1 with
        | a :: s2 => x ← digit_val a; if (x =? 0)%nat then None else Some (x, s2)
        | [] => None
        end
      else digits12 s
  | [] => None
  end.

Definition expect (c : ascii) (s : list ascii) : option (list ascii) :=
  match s with
  | c' :: s' => if Ascii.eqb c c' then Some s' else None
  | [] => None
  end.

Fixpoint skip_spaces (s : list ascii) : list ascii :=
  match s with
  | c :: s' => if is_space c then skip_spaces s' else s
  | [] => []
  end.

Definition spaces1 (s : list ascii) : option (list ascii) :=
  match s with
  | c :: s' => if is_space c then Some (skip_spaces s') else None
  | [] => None
  end.

Definition parse_datetime (s : list ascii) : option datetime :=
  '(yr, s) ← digits4 s;
  s ← expect "-" s;
  '(mo, s) ← digits12 s;
  s ← expect "-" s;
  '(dy, s) ← day_field s;
  s ← spaces1 s;
  '(hh, s) ← digits12 s;
  s ← expect ":" s;
  '(mi, s) ← digits12 s;
  s ← expect ":" s;
  '(ss, s) ← digits12 s;
  match s with
  | [] => let t := mkDatetime yr mo dy hh mi ss in
          if valid_datetime t then Some t else None
  | _ => None
  end.

(** [datetime.strptime(v, '%Y-%m-%d %H:%M:%S')]; [v] is [None] where the
    reader filled in a missing cell. *)
Definition strptime (v : option string) : result datetime :=
  match v with
  | None => Raise TypeError
  | Some s =>
      match parse_datetime (list_ascii_of_string s) with
      | Some t => Ok t
      | None => Raise ValueError
      end
  end.

(** ** Text files *)

(** The results file and the marker file are opened in text mode and
    without [newline='']: what is written goes into the file as it is, and
    on reading a carriage return, alone or followed by a line feed, comes
    back as one line feed. *)
Definition CR : ascii := ascii_of_nat 13.
Definition LF : ascii := ascii_of_nat 10.

Fixpoint read_text (s : string) : string :=
  match s with
  | EmptyString => EmptyString
  | String c s' =>
      if Ascii.eqb c CR then
        String LF match s' with
                  | String c' s'' => if Ascii.eqb c' LF then read_text s'' else read_text s'
                  | EmptyString => EmptyString
                  end
      else String c (read_text s')
  end.

(** ** The history store *)

(** The results file as the [csv] module writes it: the rows written so
    far, each a list of cells; [None] when the path does not exist.  The
    writer quotes a cell that holds a comma, a quote or a line break, so the
    reader finds the same rows and cells, each cell as [read_text] gives
    it.  Cells are taken to be shorter than the reader's field size limit
    (131072 characters). *)
Definition csv_row : Type := list string.
Definition csv_file : Type := option (list csv_row).

Definition header_row : csv_row := ["Date"; "Id"; "Name"; "Price"; "Url"].

(** What [csv.writer] writes for a value: nothing for [None], [str] of it
    otherwise. *)
Definition csv_cell (v : pyval) : string :=
  match v with
  | PNone => ""
  | _ => py_str v
  end.

Definition result_row (now : datetime) (find : Posting) : csv_row :=
  [strftime now; csv_cell (posting_id find); csv_cell (name find);
   csv_cell (price find); get_direct_url find].

Definition save_results (findings : list Posting) (now : datetime) (old_file : csv_file)
  : csv_file :=
  let existing := bool_decide (is_Some old_file) in
  let opened := default [] old_file in
  let started := if existing then opened else (opened ++ [header_row])%list in
  Some (foldl (λ rows find, rows ++ [result_row now find])%list started findings).

(** [csv.DictReader]: the first row names the fields; an empty row is
    skipped; [row[key]] is the cell under the last field called [key],
    [None] when the row is too short, a [KeyError] when no field has that
    name. *)
Fixpoint last_index (key : string) (fieldnames : list string) : option nat :=
  match fieldnames with
  | [] => None
  | f :: fs =>
      match last_index key fs with
      | Some i => Some (S i)
      | None => if String.eqb key f then Some 0%nat else None
      end
  end.

Definition row_get (fieldnames row : csv_row) (key : string) : result (option string) :=
  match last_index key fieldnames with
  | Some i => Ok (row !! i)
  | None => Raise (KeyError key)
  end.

Definition nonempty_row (row : csv_row) : bool :=
  match row with [] => false | _ => true end.

(** The keys of the loaded dict are cells of the [Id] column, so strings, or
    [None] for a row that stops before that column. *)
Definition read_results_from_csv (old_file : csv_file)
  : result (gmap (option string) datetime) :=
  match old_file with
  | None => Raise FileNotFoundError
  | Some written =>
      match map (map read_text) written with
      | [] => Ok ∅
      | fieldnames :: rows =>
          for_each (λ (result_dict : gmap (option string) datetime) row,
                      date ← row_get fieldnames row "Date";
                      t ← strptime date;
                      id ← row_get fieldnames row "Id";
                      Ok (<[id := t]> result_dict))
                   ∅ (filter (λ row, nonempty_row row = true) rows)
      end
  end.

(** The start of [__main__]: the history is read when the file exists, and
    is empty otherwise. *)
Definition load_history (old_file : csv_file) : result (gmap (option string) datetime) :=
  if bool_decide (is_Some old_file) then read_results_from_csv old_file else Ok ∅.

(** ** The notifier *)

Record mail : Type := mkMail {
  smtp_server : string;
  smtp_port : pyval;
  mail_from : string;
  mail_to : string;
  subject : string;
  message_text : string
}.

(** What a run can see and change outside its own variables. *)
Record world : Type := mkWorld {
  environ : gmap string string;         (* the environment variables *)
  data_dir : bool;                      (* the directory data/ is there; with the
                                           marker file it is there in any case *)
  previous_error_file : option string;  (* data/previous_error.txt, if it exists *)
  old_results_file : csv_file;          (* the results file *)
  outbox : list mail;                   (* the mails the SMTP server took, oldest first *)
  smtp_failure : option exn             (* what the SMTP session raises, if it does *)
}.

(** The marker file can be opened for writing: nothing in the program makes
    the directory. *)
Definition marker_writable (w : world) : bool :=
  data_dir w || bool_decide (is_Some (previous_error_file w)).

(** The marker file after it was written ([Some]) or removed ([None]); either
    way the directory is there. *)
Definition set_previous_error (v : option string) (w : world) : world :=
  mkWorld (environ w) true v (old_results_file w) (outbox w) (smtp_failure w).

Definition set_old_results (f : csv_file) (w : world) : world :=
  mkWorld (environ w) (data_dir w) (previous_error_file w) f (outbox w) (smtp_failure w).

Definition deliver (m : mail) (w : world) : world :=
  mkWorld (environ w) (data_dir w) (previous_error_file w) (old_results_file w)
          (outbox w ++ [m])%list (smtp_failure w).

(** Truth value of what [os.getenv] returned. *)
Definition env_truthy (v : option string) : bool :=
  match v with
  | Some s => negb (String.eqb s "")
  | None => false
  end.

Definition newline : string := String (ascii_of_nat 10) "".

(** [error.__class__.__name__] *)
Definition error_kind (error : option exn) : string :=
  match error with
  | Some e => class_name e
  | None => "NoneType"
  end.

Definition mail_notify (new_count : Z) (posting_list : list Posting) (error : option exn)
    (w : world) : result unit * world :=
  let mail_sender := environ w !! "MAIL_SENDER" in
  let mail_password := environ w !! "MAIL_PASSWORD" in
  let old_error := read_text <$> previous_error_file w in
  if env_truthy mail_sender && env_truthy mail_password
     && ((0 <? new_count)%Z || negb (bool_decide (Some (error_kind error) = old_error)))
  then
    let server := default "smtp.gmail.com" (environ w !! "SMTP_SERVER") in
    let port := from_option PStr (PInt 587) (environ w !! "SMTP_PORT") in
    let sender := "Fundgrube Notifier <" +:+ default "" mail_sender +:+ ">" in
    let receiver := default (default "" mail_sender) (environ w !! "MAIL_RECEIVER") in
    let composed : result (string * string * world) :=
      match error with
      | Some e =>
          if marker_writable w then
            Ok (exn_repr e, "An error occured", set_previous_error (Some (class_name e)) w)
          else Raise FileNotFoundError
      | None =>
          if (0 <? new_count)%Z then
            Ok (String.concat (" " +:+ newline)
                  (map (λ post, Posting_str post +:+ ": " +:+ get_direct_url post +:+ newline)
                       posting_list),
                pretty new_count +:+ " new items", w)
          else
            match previous_error_file w with
            | Some _ => Ok ("Previous error fixed", "Error fixed", set_previous_error None w)
            | None => Raise FileNotFoundError
            end
      end in
    match composed with
    | Raise e => (Raise e, w)
    | Ok (text, subj, w1) =>
        let message :=
          mkMail server port sender receiver
                 (if bool_decide (default "" mail_sender = receiver)
                  then "Fundgrube: " +:+ subj else subj)
                 text in
        match smtp_failure w1 with
        | Some e => (Raise e, w1)
        | None => (Ok tt, deliver message w1)
        end
    end
  else (Ok tt, w).

(** ** The run *)

Definition base_mm : string := "https://www.mediamarkt.de/de/data/fundgrube".
Definition base_sa : string := "https://www.saturn.de/de/data/fundgrube".

Definition always_safe (c : ascii) : bool :=
  let n := nat_of_ascii c in
  (((65 <=? n) && (n <=? 90)) || ((97 <=? n) && (n <=? 122)) || ((48 <=? n) && (n <=? 57)))%nat
  || has_char c "_.-~".

Definition hex_upper (n : nat) : ascii :=
  ascii_of_nat (if (n <? 10)%nat then 48 + n else 55 + n)%nat.

(** [quote(s, safe='')] on the UTF-8 bytes of [s] *)
Definition quote (s : string) : string :=
  String.concat ""
    (map (λ c, if always_safe c then String c ""
               else String "%" (String (hex_upper (nat_of_ascii c / 16)%nat)
                                       (String (hex_upper (nat_of_ascii c mod 16)%nat) "")))
         (list_ascii_of_string s)).

Definition py_quote (v : pyval) : result string :=
  match v with
  | PStr s => Ok (quote s)
  | _ => Raise TypeError
  end.

(** [list(v)] *)
Definition py_list (v : pyval) : result (list pyval) :=
  match v with
  | PList xs => Ok xs
  | PDict kvs => Ok (map (λ kv, PStr (fst kv)) kvs)
  | PStr s => Ok (map (λ c, PStr (String c "")) (list_ascii_of_string s))
  | _ => Raise TypeError
  end.

(** [list(js_fundgrube.get('postings'))] *)
Definition postings_of (js_fundgrube : pyval) : result (list pyval) :=
  match js_fundgrube with
  | PDict kvs => py_list (dict_get "postings" kvs)
  | _ => Raise AttributeError
  end.

(** [old_dict.get(k)]: a list or a dict cannot be hashed; a number or a
    boolean is equal to no key of the history. *)
Definition history_get (old_dict : gmap (option string) datetime) (k : pyval)
  : result (option datetime) :=
  match k with
  | PStr s => Ok (old_dict !! Some s)
  | PNone => Ok (old_dict !! None)
  | PList _ | PDict _ => Raise TypeError
  | _ => Ok None
  end.

(** The network: [net n url] is the decoded body ([request_get] followed by
    [json.loads]) of the request number [n] of the run, made to [url]. *)
Definition network : Type := nat → string → result pyval.

Definition scan_post (old_dict : gmap (option string) datetime) (base : string)
    (findings : list Posting) (post : pyval) : result (list Posting) :=
  p ← Posting_init post base;
  entry ← history_get old_dict (posting_id p);
  Ok (match entry with
      | None => (findings ++ [p])%list
      | Some _ => findings
      end).

Definition posting_url (base search_text : string) (fil : GameFilter) : string :=
  let url := base +:+ "/api/postings?limit=32&offset=0&orderBy=new&recentFilter=text&text="
                  +:+ search_text in
  if truthy (filter_price fil) then url +:+ "&priceMax=" +:+ py_str (filter_price fil) else url.

Definition scan_endpoint (net : network) (old_dict : gmap (option string) datetime)
    (fil : GameFilter) (search_text : string)
    (st : nat * list Posting) (base : string) : result (nat * list Posting) :=
  js_fundgrube ← net (fst st) (posting_url base search_text fil);
  posting_list ← postings_of js_fundgrube;
  findings ← for_each (scan_post old_dict base) (snd st) posting_list;
  Ok (S (fst st), findings).

Definition scan_filter (net : network) (old_dict : gmap (option string) datetime)
    (st : nat * list Posting) (fil : GameFilter) : result (nat * list Posting) :=
  search_text ← py_quote (search fil);
  for_each (scan_endpoint net old_dict fil search_text) st [base_mm; base_sa].

(** The loop of [__main__] over the filters and the two endpoints. *)
Definition collect_findings (net : network) (old_dict : gmap (option string) datetime)
    (filter_list : list GameFilter) : result (list Posting) :=
  st ← for_each (scan_filter net old_dict) (0%nat, []) filter_list;
  Ok (snd st).

(** One run of [__main__] with the filters already read; [now] is the clock
    as [save_results] reads it. *)
Definition main (filter_list : list GameFilter) (net : network) (now : datetime)
    (w : world) : result unit * world :=
  match load_history (old_results_file w) with
  | Raise e => (Raise e, w)
  | Ok old_dict =>
      match collect_findings net old_dict filter_list with
      | Raise e => (Raise e, w)
      | Ok findings =>
          if (0 <? List.length findings)%nat then
            let w1 := set_old_results (save_results findings now (old_results_file w)) w in
            mail_notify (Z.of_nat (List.length findings)) findings None w1
          else (Ok tt, w)
      end
  end.

(** ** The filter configuration *)

(** [GameFilter.__init__]: the price is looked up among the keyword
    arguments. *)
Definition GameFilter_init (search : pyval) (kwargs : list (string * pyval)) : GameFilter :=
  mkGameFilter search (dict_get "price" kwargs).

(** [GameFilter.__repr__] *)
Definition GameFilter_repr (fil : GameFilter) : string :=
  "GameFilter(include=" +:+ py_str (search fil) +:+ ", price=" +:+ py_str (filter_price fil)
  +:+ ")".

(** One element of the comprehension in [read_games_from_json]: the call
    [GameFilter] with [item['include']] and the items of [item] as keyword
    arguments.  The subscript is evaluated first; a key [search] is a second
    value for the first parameter and a key [self] collides with the
    receiver; every other key goes to [kwargs]. *)
Definition read_game (item : pyval) : result GameFilter :=
  match item with
  | PDict kvs =>
      match dict_lookup "include" kvs with
      | None => Raise (KeyError "include")
      | Some include =>
          if bool_decide (is_Some (dict_lookup "search" kvs))
             || bool_decide (is_Some (dict_lookup "self" kvs))
          then Raise TypeError
          else Ok (GameFilter_init include kvs)
      end
  | _ => Raise TypeError
  end.

(** A list comprehension whose element expression may raise. *)
Fixpoint comprehension {A B : Type} (f : A → result B) (l : list A) : result (list B) :=
  match l with
  | [] => Ok []
  | x :: l' => y ← f x; ys ← comprehension f l'; Ok (y :: ys)
  end.

(** [read_games_from_json] on the decoded content [data] of the
    configuration file. *)
Definition read_games_from_json (data : pyval) : result (list GameFilter) :=
  items ← py_list data;
  comprehension read_game items.

(** The whole of [__main__]: [config] is what opening and decoding the
    configuration file gives. *)
Definition program (config : result pyval) (net : network) (now : datetime) (w : world)
  : result unit * world :=
  match config ≫= read_games_from_json with
  | Raise e => (Raise e, w)
  | Ok filter_list => main filter_list net now w
  end.

(** * Vocabulary of the properties *)

(** Both credentials are set and not empty. *)
Definition credentials (w : world) : bool :=
  env_truthy (environ w !! "MAIL_SENDER") && env_truthy (environ w !! "MAIL_PASSWORD").

(** The test that guards the body of [mail_notify]. *)
Definition wants_mail (new_count : Z) (error : option exn) (w : world) : bool :=
  credentials w
  && ((0 <? new_count)%Z
      || negb (bool_decide (Some (error_kind error) = read_text <$> previous_error_file w))).

(** A text that is read back as it was written: it holds no carriage
    return. *)
Definition no_cr (s : string) : bool := negb (has_char CR s).

(** A clock reading of the years in which [strftime] prints four digits on
    every platform. *)
Definition clock_ok (now : datetime) : bool :=
  valid_datetime now && (1000 <=? year now)%nat.

(** Sample data *)
Definition sample_env : gmap string string :=
  {[ "MAIL_SENDER" := "me@example.org"; "MAIL_PASSWORD" := "secret" ]}.
Definition sample_world : world := mkWorld sample_env true None None [] None.
Definition w_no_password : world :=
  mkWorld {[ "MAIL_SENDER" := "me@example.org" ]} true (Some "FetchError") None [] None.
Definition FetchError : exn := Exn "FetchError" [PStr "timeout"].

(** The data rows of the results file: everything below the first line. *)
Definition records (f : csv_file) : list csv_row :=
  match f with
  | Some (_ :: rows) => rows
  | _ => []
  end.

(** The file does not exist yet, or starts with the line [save_results]
    writes into a new file. *)
Definition header_ok (f : csv_file) : Prop :=
  f = None ∨ ∃ rows, f = Some (header_row :: rows).

(** Cells of a data row under that header, as they are read. *)
Definition row_date (row : csv_row) : result datetime :=
  strptime (read_text <$> row !! 0%nat).
Definition row_id (row : csv_row) : option string := read_text <$> row !! 1%nat.

(** The identifiers on record, oldest first (blank lines are no records). *)
Definition stored_ids (f : csv_file) : list (option string) :=
  map row_id (filter (λ row, nonempty_row row = true) (records f)).

(** The identifier of a posting as [save_results] writes it, and as it is
    read from the record. *)
Definition record_key (p : Posting) : option string := Some (csv_cell (posting_id p)).
Definition read_key (p : Posting) : option string :=
  Some (read_text (csv_cell (posting_id p))).

(** Values [old_dict.get] accepts as a key. *)
Definition hashable (k : pyval) : bool :=
  match k with
  | PList _ | PDict _ => false
  | _ => true
  end.

(** The identifier is no key of the history. *)
Definition absent_from (old_dict : gmap (option string) datetime) (k : pyval) : bool :=
  match k with
  | PStr s => bool_decide (old_dict !! Some s = None)
  | PNone => bool_decide (old_dict !! (None : option string) = None)
  | _ => true
  end.

(** A string that is read back as it was written. *)
Definition plain_id (k : pyval) : bool :=
  match k with
  | PStr s => no_cr s
  | _ => false
  end.

(** The postings of one response, and of a whole run: filter by filter, the
    first endpoint before the second, each response in its own order. *)
Fixpoint construct_all (base : string) (posting_list : list pyval) : result (list Posting) :=
  match posting_list with
  | [] => Ok []
  | post :: rest =>
      p ← Posting_init post base;
      ps ← construct_all base rest;
      Ok (p :: ps)
  end.

Definition fetch_endpoint (net : network) (fil : GameFilter) (search_text : string)
    (n : nat) (base : string) : result (list Posting) :=
  js_fundgrube ← net n (posting_url base search_text fil);
  posting_list ← postings_of js_fundgrube;
  construct_all base posting_list.

Fixpoint fetched_from (net : network) (n : nat) (filter_list : list GameFilter)
  : result (list Posting) :=
  match filter_list with
  | [] => Ok []
  | fil :: rest =>
      search_text ← py_quote (search fil);
      mm ← fetch_endpoint net fil search_text n base_mm;
      sa ← fetch_endpoint net fil search_text (S n) base_sa;
      more ← fetched_from net (S (S n)) rest;
      Ok (mm ++ sa ++ more)
  end.

Definition fetched_postings (net : network) (filter_list : list GameFilter)
  : result (list Posting) :=
  fetched_from net 0 filter_list.

(** Runs one after the other. *)
Record run_input : Type := mkRun {
  run_filters : list GameFilter;
  run_net : network;
  run_now : datetime
}.

Definition run (w : world) (i : run_input) : world :=
  snd (main (run_filters i) (run_net i) (run_now i) w).

Definition runs (w : world) (inputs : list run_input) : world := foldl run w inputs.

(** Every posting the run finds new has a string without carriage return
    for identifier, and no two of them have the same. *)
Definition new_ids_distinct (w : world) (i : run_input) : Prop :=
  ∀ old_dict findings,
    load_history (old_results_file w) = Ok old_dict →
    collect_findings (run_net i) old_dict (run_filters i) = Ok findings →
    NoDup (map posting_id findings)
    ∧ Forall (λ p, plain_id (posting_id p) = true) findings.

Fixpoint runs_distinct (w : world) (inputs : list run_input) : Prop :=
  match inputs with
  | [] => True
  | i :: rest => new_ids_distinct w i ∧ runs_distinct (run w i) rest
  end.

(** More sample data *)
Definition sample_now : datetime := mkDatetime 2024 11 3 10 35 0.
Definition raw_posting (id : string) (outlet : pyval) : pyval :=
  PDict [("posting_id", PStr id); ("pim_id", PStr "2688430"); ("name", PStr "Zelda");
         ("original_url", PStr "/p/1"); ("posting_text", PStr "ok"); ("price", PStr "25.00");
         ("shipping_cost", PInt 0); ("discount_in_percent", PInt 40); ("outlet", outlet)].
Definition sample_posting (id : string) : Posting :=
  mkPosting base_mm (PStr id) (PStr "2688430") (PStr "Zelda") (PStr "/p/1") (PStr "ok")
            (PStr "25.00") (PInt 0) (PInt 40) (PInt 418).
Definition sample_filter : GameFilter := mkGameFilter (PStr "Zelda") PNone.
(** Both endpoints answer with the same single posting. *)
Definition net_same : network :=
  λ _ _, Ok (PDict [("postings", PList [raw_posting "A" (PDict [("id", PInt 418)])])]).
(** The endpoints answer with postings [A], [B] and then [C], [A]. *)
Definition net_abca : network :=
  λ n _, Ok (PDict [("postings",
                     PList (if (n =? 0)%nat
                            then [raw_posting "A" PNone; raw_posting "B" PNone]
                            else [raw_posting "C" PNone; raw_posting "A" PNone]))]).
Definition sample_store : csv_file :=
  Some [header_row;
        ["2024-11-01 08:00:00"; "A"; "Zelda"; "25.00"; "u"];
        ["2024-11-02 09:30:00"; "B"; "Mario"; "30.00"; "u"];
        ["2024-11-03 10:35:00"; "A"; "Zelda"; "20.00"; "u"]].

(** What reading one data row does to the dict, under the usual header. *)
Definition read_row (result_dict : gmap (option string) datetime) (row : csv_row)
  : result (gmap (option string) datetime) :=
  t ← row_date row;
  Ok (<[row_id row := t]> result_dict).

(** One run in which both endpoints answer with the same posting. *)
Definition run_same : run_input := mkRun [sample_filter] net_same sample_now.
Definition run_abca : run_input := mkRun [sample_filter] net_abca sample_now.
(** The endpoints answer with postings [A], [B] and then [C], [D]. *)
Definition net_abcd : network :=
  λ n _, Ok (PDict [("postings",
                     PList (if (n =? 0)%nat
                            then [raw_posting "A" PNone; raw_posting "B" PNone]
                            else [raw_posting "C" PNone; raw_posting "D" PNone]))]).
Definition run_abcd : run_input := mkRun [sample_filter] net_abcd sample_now.
(** A later run: the endpoints answer with [A], [E] and then [B], [F]. *)
Definition net_aebf : network :=
  λ n _, Ok (PDict [("postings",
                     PList (if (n =? 0)%nat
                            then [raw_posting "A" PNone; raw_posting "E" PNone]
                            else [raw_posting "B" PNone; raw_posting "F" PNone]))]).
Definition run_aebf : run_input :=
  mkRun [sample_filter] net_aebf (mkDatetime 2024 11 4 10 35 0).

(** ** Vocabulary of the further properties *)

(** The parameters of [Posting.__init__] that a record has to supply. *)
Definition named_parameters : list string :=
  ["posting_id"; "pim_id"; "name"; "original_url"; "posting_text"; "price";
   "shipping_cost"; "discount_in_percent"; "outlet"].

Definition has_key (k : string) (kvs : list (string * pyval)) : bool :=
  bool_decide (is_Some (dict_lookup k kvs)).

(** The records a posting can be made from: a dict with every named
    parameter, without [base_url] and [self], whose outlet is false or a
    dict. *)
Definition posting_record_ok (post : pyval) : bool :=
  match post with
  | PDict kvs =>
      negb (has_key "base_url" kvs) && negb (has_key "self" kvs)
      && forallb (λ k, has_key k kvs) named_parameters
      && match dict_lookup "outlet" kvs with
         | Some (PDict _) => true
         | Some outlet => negb (truthy outlet)
         | None => false
         end
  | _ => false
  end.

(** The characters [quote] lets through, and the one it adds. *)
Definition url_safe (c : ascii) : bool := always_safe c || Ascii.eqb c "%".

Definition quote_char (c : ascii) : string :=
  if always_safe c then String c ""
  else String "%" (String (hex_upper (nat_of_ascii c / 16)%nat)
                          (String (hex_upper (nat_of_ascii c mod 16)%nat) "")).

(** More sample worlds *)
Definition w_marked : world := mkWorld sample_env true (Some "FetchError") None [] None.
Definition w_marked_smtp_down : world :=
  mkWorld sample_env true (Some "FetchError") None [] (Some (Exn "SMTPServerDisconnected" [])).

(** The first endpoint answers, the second one fails. *)
Definition net_second_fails : network :=
  λ n _, if (n =? 0)%nat
         then Ok (PDict [("postings", PList [raw_posting "A" PNone])])
         else Raise (Exn "ConnectionError" []).
Definition sample_world_smtp_down : world :=
  mkWorld sample_env true None None [] (Some (Exn "SMTPServerDisconnected" [])).

(** A configuration with two filters, and one whose second entry has a key
    called [search]. *)
Definition sample_config : pyval :=
  PList [PDict [("include", PStr "Zelda"); ("price", PInt 30)];
         PDict [("include", PStr "Mario Kart")]].
Definition bad_config : pyval :=
  PList [PDict [("include", PStr "Zelda")];
         PDict [("include", PStr "Mario"); ("search", PStr "Kart")]].

(** Both endpoints answer with no posting. *)
Definition net_nothing : network := λ _ _, Ok (PDict [("postings", PList [])]).

(** * Text read back from a file *)

Lemma has_char_cons (c x : ascii) (s : string) :
  has_char c (String x s) = Ascii.eqb c x || has_char c s.
Proof. reflexivity. Qed.

Lemma read_text_cons (c : ascii) (s : string) :
  Ascii.eqb c CR = false → read_text (String c s) = String c (read_text s).
Proof. intros H. cbn [read_text]. rewrite H. reflexivity. Qed.

(** A text without carriage return is read back as it was written. *)
Lemma read_text_no_cr (s : string) : no_cr s = true → read_text s = s.
Proof.
  unfold no_cr. induction s as [|c s IH]; [reflexivity|].
  rewrite has_char_cons, negb_orb, andb_true_iff. intros [Hc Hs].
  rewrite read_text_cons.
  - rewrite IH by exact Hs. reflexivity.
  - rewrite Ascii.eqb_sym. apply negb_true_iff. exact Hc.
Qed.

(** What is read without a line feed was written that way. *)
Lemma read_text_no_lf (s : string) : has_char LF (read_text s) = false → read_text s = s.
Proof.
  induction s as [|c s IH]; [reflexivity|].
  destruct (Ascii.eqb c CR) eqn:Hc.
  - cbn [read_text]. rewrite Hc, has_char_cons. discriminate.
  - rewrite read_text_cons by exact Hc. rewrite has_char_cons.
    intros H. apply orb_false_iff in H as [_ H]. rewrite IH by exact H. reflexivity.
Qed.

Lemma read_text_NoneType (k : string) : read_text k = "NoneType" → k = "NoneType".
Proof.
  intros H. rewrite <- H. symmetry. apply read_text_no_lf. rewrite H. reflexivity.
Qed.

(** * The notifier *)

Lemma mail_notify_skip new_count posting_list error w :
  wants_mail new_count error w = false →
  mail_notify new_count posting_list error w = (Ok tt, w).
Proof.
  unfold wants_mail, credentials, mail_notify. intros ->. reflexivity.
Qed.

Lemma mail_notify_error new_count posting_list e w :
  wants_mail new_count (Some e) w = true →
  marker_writable w = true →
  ∃ m, message_text m = exn_repr e ∧
       mail_notify new_count posting_list (Some e) w =
       let w1 := set_previous_error (Some (class_name e)) w in
       match smtp_failure w with
       | Some se => (Raise se, w1)
       | None => (Ok tt, deliver m w1)
       end.
Proof.
  unfold wants_mail, credentials, mail_notify. intros -> ->. cbn.
  eexists (mkMail _ _ _ _ _ _). split; [|reflexivity]. reflexivity.
Qed.


Lemma mail_notify_fixed posting_list k w :
  credentials w = true → previous_error_file w = Some k → k ≠ "NoneType" →
  ∃ m, message_text m = "Previous error fixed" ∧
       mail_notify 0 posting_list None w =
       let w1 := set_previous_error None w in
       match smtp_failure w with
       | Some se => (Raise se, w1)
       | None => (Ok tt, deliver m w1)
       end.
Proof.
  unfold credentials, mail_notify. intros -> Hk Hne. rewrite Hk. cbn.
  rewrite bool_decide_eq_false_2.
  2: { intros [= E]. apply Hne. apply read_text_NoneType. symmetry. exact E. }
  cbn. eexists (mkMail _ _ _ _ _ _). split; [|reflexivity]. reflexivity.
Qed.

(** With credentials, the call of rule 4 (no error, nothing new, no marker)
    enters the body, takes the "error fixed" branch and stops at
    [os.remove] of a file that is not there. *)
Lemma mail_notify_idle_raises posting_list w :
  credentials w = true → previous_error_file w = None →
  mail_notify 0 posting_list None w = (Raise FileNotFoundError, w).
Proof.
  unfold credentials, mail_notify. intros -> ->. reflexivity.
Qed.

Lemma wants_mail_same_kind e w :
  read_text <$> previous_error_file w = Some (class_name e) →
  wants_mail 0 (Some e) w = false.
Proof.
  unfold wants_mail. intros ->. cbn.
  rewrite bool_decide_eq_true_2 by reflexivity. apply andb_false_r.
Qed.

Lemma wants_mail_new_kind new_count e w :
  credentials w = true →
  (0 < new_count)%Z ∨ read_text <$> previous_error_file w ≠ Some (class_name e) →
  wants_mail new_count (Some e) w = true.
Proof.
  unfold wants_mail. intros -> [Hn|Hk]; cbn.
  - apply Z.ltb_lt in Hn. rewrite Hn. reflexivity.
  - rewrite bool_decide_eq_false_2 by congruence. apply orb_true_r.
Qed.

(** C7: without a sender address or without a password, [mail_notify]
    returns normally, sends nothing and leaves the marker (and everything
    else) as it was, whatever the count, the postings, the error and the
    marker are. *)
Theorem mail_notify_without_credentials new_count posting_list error w :
  env_truthy (environ w !! "MAIL_SENDER") = false
  ∨ env_truthy (environ w !! "MAIL_PASSWORD") = false →
  mail_notify new_count posting_list error w = (Ok tt, w).
Proof.
  intros H. apply mail_notify_skip. unfold wants_mail, credentials.
  destruct H as [-> | ->]; [reflexivity|].
  rewrite andb_false_r. reflexivity.
Qed.

Lemma mail_notify_without_credentials_witness :
  mail_notify 2 [] (Some FetchError) w_no_password = (Ok tt, w_no_password).
Proof.
  apply mail_notify_without_credentials. right. vm_compute. reflexivity.
Defined.

(** C4: with no error, nothing new and no marker, no mail is sent and the
    persisted state is the same after the call, with or without
    credentials.  (With credentials the call does not return normally, see
    [mail_notify_idle_raises].) *)
Theorem mail_notify_idle posting_list w :
  previous_error_file w = None →
  let after := snd (mail_notify 0 posting_list None w) in
  outbox after = outbox w
  ∧ previous_error_file after = previous_error_file w
  ∧ old_results_file after = old_results_file w
  ∧ after = w.
Proof.
  intros Hk. destruct (credentials w) eqn:Hc.
  - rewrite mail_notify_idle_raises by assumption. cbn. auto.
  - rewrite mail_notify_skip; [cbn; auto|].
    unfold wants_mail. rewrite Hc. reflexivity.
Qed.

Lemma mail_notify_idle_witness :
  snd (mail_notify 0 [] None sample_world) = sample_world.
Proof.
  apply (mail_notify_idle [] sample_world). reflexivity.
Defined.

(** C3, for the notifier: with credentials, a working transport and a
    marker file that can be written, a call with an error whose kind the
    marker does not read as sends one mail and sets the marker to that kind;
    a call with the same kind then sends nothing and changes nothing; a call
    without error and without new items then sends one "fixed" mail and
    removes the marker; after that the same kind alerts again.  The kind is
    the class name; it is not [NoneType], the name [mail_notify] compares
    with when there is no error, and it holds no carriage return.  (The
    program itself makes none of these calls.) *)
Theorem error_alerts_once w e e' ps1 ps2 ps3 ps4 :
  credentials w = true →
  smtp_failure w = None →
  marker_writable w = true →
  read_text <$> previous_error_file w ≠ Some (class_name e) →
  class_name e ≠ "NoneType" →
  no_cr (class_name e) = true →
  class_name e' = class_name e →
  ∃ w1 w3 w4 m1 m3 m4,
    mail_notify 0 ps1 (Some e) w = (Ok tt, w1)
    ∧ outbox w1 = (outbox w ++ [m1])%list ∧ message_text m1 = exn_repr e
    ∧ previous_error_file w1 = Some (class_name e)
    ∧ mail_notify 0 ps2 (Some e') w1 = (Ok tt, w1)
    ∧ mail_notify 0 ps3 None w1 = (Ok tt, w3)
    ∧ outbox w3 = (outbox w1 ++ [m3])%list ∧ message_text m3 = "Previous error fixed"
    ∧ previous_error_file w3 = None
    ∧ mail_notify 0 ps4 (Some e') w3 = (Ok tt, w4)
    ∧ outbox w4 = (outbox w3 ++ [m4])%list ∧ message_text m4 = exn_repr e'
    ∧ previous_error_file w4 = Some (class_name e).
Proof.
  intros Hc Hs Hd Hk Hn Hcr He.
  destruct (mail_notify_error 0 ps1 e w) as (m1 & Hm1 & E1); [|exact Hd|].
  { apply wants_mail_new_kind; auto. }
  rewrite Hs in E1. cbn in E1.
  set (w1 := deliver m1 (set_previous_error (Some (class_name e)) w)) in *.
  destruct (mail_notify_fixed ps3 (class_name e) w1) as (m3 & Hm3 & E3); auto.
  cbn in E3. rewrite Hs in E3.
  set (w3 := deliver m3 (set_previous_error None w1)) in *.
  destruct (mail_notify_error 0 ps4 e' w3) as (m4 & Hm4 & E4); [|reflexivity|].
  { apply wants_mail_new_kind; [exact Hc | right; discriminate]. }
  cbn in E4. rewrite Hs in E4.
  exists w1, w3, (deliver m4 (set_previous_error (Some (class_name e')) w3)), m1, m3, m4.
  repeat split; try assumption; try reflexivity.
  - apply mail_notify_skip, wants_mail_same_kind. cbn.
    rewrite read_text_no_cr by exact Hcr. rewrite He. reflexivity.
  - cbn. rewrite He. reflexivity.
Qed.

Lemma error_alerts_once_witness :
  ∃ w1 w3 w4 m1 m3 m4,
    mail_notify 0 [] (Some FetchError) sample_world = (Ok tt, w1)
    ∧ outbox w1 = (outbox sample_world ++ [m1])%list ∧ message_text m1 = exn_repr FetchError
    ∧ previous_error_file w1 = Some "FetchError"
    ∧ mail_notify 0 [] (Some FetchError) w1 = (Ok tt, w1)
    ∧ mail_notify 0 [] None w1 = (Ok tt, w3)
    ∧ outbox w3 = (outbox w1 ++ [m3])%list ∧ message_text m3 = "Previous error fixed"
    ∧ previous_error_file w3 = None
    ∧ mail_notify 0 [] (Some FetchError) w3 = (Ok tt, w4)
    ∧ outbox w4 = (outbox w3 ++ [m4])%list ∧ message_text m4 = exn_repr FetchError
    ∧ previous_error_file w4 = Some "FetchError".
Proof.
  apply (error_alerts_once sample_world FetchError FetchError [] [] [] []).
  - vm_compute. reflexivity.
  - reflexivity.
  - reflexivity.
  - discriminate.
  - discriminate.
  - reflexivity.
  - reflexivity.
Defined.




(** * Timestamps are read back as they were written *)

Lemma digit_val_char k : (k < 10)%nat → digit_val (digit_char k) = Some k.
Proof.
  intros H. do 10 (destruct k as [|k]; [reflexivity|]). lia.
Qed.

Lemma digit_char_not_blank k : (k < 10)%nat → Ascii.eqb (digit_char k) " " = false.
Proof.
  intros H. do 10 (destruct k as [|k]; [reflexivity|]). lia.
Qed.

Lemma digit_char_not_space k : (k < 10)%nat → is_space (digit_char k) = false.
Proof.
  intros H. do 10 (destruct k as [|k]; [reflexivity|]). lia.
Qed.

Lemma digits12_pad2 n rest : (n < 100)%nat → digits12 (pad2 n ++ rest) = Some (n, rest).
Proof.
  intros H. unfold pad2, digits12. cbn [app].
  assert (H1 : (n / 10 mod 10 < 10)%nat) by (apply Nat.mod_upper_bound; lia).
  assert (H2 : (n mod 10 < 10)%nat) by (apply Nat.mod_upper_bound; lia).
  rewrite (digit_val_char _ H1). cbn [mbind option_bind].
  rewrite (digit_val_char _ H2). do 2 f_equal.
  rewrite (Nat.mod_small (n / 10) 10) by (apply Nat.Div0.div_lt_upper_bound; lia).
  symmetry. apply Nat.div_mod_eq.
Qed.

Lemma decimal4 n :
  (n < 100 * 100)%nat →
  (1000 * (n / 1000 mod 10) + 100 * (n / 100 mod 10) + 10 * (n / 10 mod 10) + n mod 10 = n)%nat.
Proof.
  intros H.
  assert (E3 : (n / 1000 = n / 10 / 10 / 10)%nat) by (rewrite !Nat.Div0.div_div; reflexivity).
  assert (E2 : (n / 100 = n / 10 / 10)%nat) by (rewrite !Nat.Div0.div_div; reflexivity).
  rewrite E3, E2.
  pose proof (Nat.div_mod_eq n 10) as D0.
  pose proof (Nat.div_mod_eq (n / 10) 10) as D1.
  pose proof (Nat.div_mod_eq (n / 10 / 10) 10) as D2.
  assert (S3 : (n / 10 / 10 / 10 < 10)%nat).
  { rewrite <- E3. apply Nat.Div0.div_lt_upper_bound. simpl in H. lia. }
  rewrite (Nat.mod_small _ _ S3).
  revert D0 D1 D2.
  generalize (n mod 10)%nat (n / 10 mod 10)%nat (n / 10 / 10 mod 10)%nat (n / 10 / 10 / 10)%nat.
  generalize (n / 10 / 10)%nat (n / 10)%nat. intros. lia.
Qed.

Lemma digits4_pad4 n rest :
  (n < 100 * 100)%nat → digits4 (pad4 n ++ rest) = Some (n, rest).
Proof.
  intros H. unfold pad4, pad2, digits4. cbn [app].
  rewrite !digit_val_char by (apply Nat.mod_upper_bound; lia).
  cbn [mbind option_bind]. rewrite decimal4 by assumption. reflexivity.
Qed.

Lemma day_field_pad2 n rest : (n < 100)%nat → day_field (pad2 n ++ rest) = Some (n, rest).
Proof.
  intros H. pose proof (digits12_pad2 n rest H) as E.
  unfold pad2 in *. cbn [app] in *. unfold day_field.
  rewrite digit_char_not_blank by (apply Nat.mod_upper_bound; lia). exact E.
Qed.

Lemma spaces1_pad2 n rest : spaces1 (" "%char :: pad2 n ++ rest) = Some (pad2 n ++ rest).
Proof.
  unfold spaces1. change (is_space " ") with true. cbv iota.
  unfold pad2. cbn [app skip_spaces].
  rewrite digit_char_not_space by (apply Nat.mod_upper_bound; lia). reflexivity.
Qed.

Lemma days_in_month_le y m : (days_in_month y m ≤ 31)%nat.
Proof.
  unfold days_in_month.
  do 12 (destruct m as [|m]; [try destruct (is_leap y); lia|]). lia.
Qed.

Lemma valid_datetime_bounds d :
  valid_datetime d = true →
  (year d < 100 * 100 ∧ month d < 100 ∧ day d < 100
   ∧ hour d < 100 ∧ minute d < 100 ∧ second d < 100)%nat.
Proof.
  unfold valid_datetime. rewrite !andb_true_iff.
  rewrite !Nat.leb_le, !Nat.ltb_lt.
  intros ((((((((? & ?) & ?) & ?) & ?) & Hd) & ?) & ?) & ?).
  pose proof (days_in_month_le (year d) (month d)).
  repeat split; try assumption; lia.
Qed.

Lemma expect_same c s : expect c (c :: s) = Some s.
Proof. unfold expect. rewrite Ascii.eqb_refl. reflexivity. Qed.

Lemma parse_datetime_strftime d :
  valid_datetime d = true →
  parse_datetime (list_ascii_of_string (strftime d)) = Some d.
Proof.
  intros Hv. destruct (valid_datetime_bounds d Hv) as (Hy & Hm & Hd & Hh & Hmi & Hs).
  unfold strftime. rewrite list_ascii_of_string_of_list_ascii.
  unfold parse_datetime.
  rewrite digits4_pad4 by assumption. cbn [mbind option_bind]. rewrite expect_same.
  cbn [mbind option_bind].
  rewrite digits12_pad2 by assumption. cbn [mbind option_bind]. rewrite expect_same.
  cbn [mbind option_bind].
  rewrite day_field_pad2 by assumption. cbn [mbind option_bind].
  rewrite spaces1_pad2. cbn [mbind option_bind].
  rewrite digits12_pad2 by assumption. cbn [mbind option_bind]. rewrite expect_same.
  cbn [mbind option_bind].
  rewrite digits12_pad2 by assumption. cbn [mbind option_bind]. rewrite expect_same.
  cbn [mbind option_bind].
  rewrite <- (app_nil_r (pad2 (second d))).
  rewrite digits12_pad2 by assumption. cbn [mbind option_bind].
  destruct d as [y m dd h mi s]. cbv beta iota zeta.
  cbn [year month day hour minute second] in Hv |- *.
  rewrite Hv. reflexivity.
Qed.

Lemma strptime_strftime d : valid_datetime d = true → strptime (Some (strftime d)) = Ok d.
Proof.
  intros Hv. unfold strptime. rewrite parse_datetime_strftime by assumption. reflexivity.
Qed.

Lemma digit_char_not_cr (n : nat) : Ascii.eqb CR (digit_char (n mod 10)) = false.
Proof.
  assert (H : (n mod 10 < 10)%nat) by (apply Nat.mod_upper_bound; lia).
  revert H. generalize (n mod 10)%nat. intros k H.
  do 10 (destruct k as [|k]; [reflexivity|]). lia.
Qed.

(** A printed timestamp has no carriage return: it is read back as it is. *)
Lemma read_text_strftime (d : datetime) : read_text (strftime d) = strftime d.
Proof.
  apply read_text_no_cr. unfold no_cr, has_char, strftime.
  rewrite list_ascii_of_string_of_list_ascii. unfold pad4, pad2.
  cbn [app existsb]. rewrite !digit_char_not_cr. reflexivity.
Qed.

(** * The history store *)

Lemma bind_Ok {A B} (r : result A) (f : A → result B) b :
  r ≫= f = Ok b → ∃ a, r = Ok a ∧ f a = Ok b.
Proof. destruct r as [a|e]; cbn; [eauto | discriminate]. Qed.

Lemma bind_ret {A B} (a : A) (f : A → result B) : Ok a ≫= f = f a.
Proof. reflexivity. Qed.

Lemma for_each_cons {A B} (f : A → B → result A) x l a :
  for_each f a (x :: l) = f a x ≫= λ a', for_each f a' l.
Proof. reflexivity. Qed.

Lemma for_each_ext {A B} (f g : A → B → result A) l a :
  (∀ a x, f a x = g a x) → for_each f a l = for_each g a l.
Proof.
  intros E. revert a. induction l as [|x l IH]; intros a; cbn; [reflexivity|].
  rewrite E. destruct (g a x); cbn; auto.
Qed.

Lemma for_each_app {A B} (f : A → B → result A) l1 l2 a :
  for_each f a (l1 ++ l2) = (a' ← for_each f a l1; for_each f a' l2).
Proof.
  revert a. induction l1 as [|x l1 IH]; intros a; cbn; [reflexivity|].
  destruct (f a x); cbn; auto.
Qed.

Lemma for_each_map {A B C} (f : A → C → result A) (g : B → C) l a :
  for_each f a (map g l) = for_each (λ a x, f a (g x)) a l.
Proof.
  revert a. induction l as [|x l IH]; intros a; cbn; [reflexivity|].
  destruct (f a (g x)); cbn; auto.
Qed.

Lemma lookup_map {A B} (g : A → B) (l : list A) (i : nat) :
  map g l !! i = g <$> l !! i.
Proof.
  revert i. induction l as [|x l IH]; intros [|i]; cbn; auto.
Qed.

Lemma filter_nonempty_map (g : string → string) (rows : list csv_row) :
  filter (λ row, nonempty_row row = true) (map (map g) rows)
  = map (map g) (filter (λ row, nonempty_row row = true) rows).
Proof.
  induction rows as [|row rows IH]; [reflexivity|].
  change (map (map g) (row :: rows)) with (map g row :: map (map g) rows).
  destruct row as [|c row].
  - rewrite !filter_cons_False by (cbn; discriminate). exact IH.
  - rewrite !filter_cons_True by reflexivity.
    change (map (map g) ((c :: row) :: ?l)) with (map g (c :: row) :: map (map g) l).
    f_equal. exact IH.
Qed.

Lemma read_results_header rows :
  read_results_from_csv (Some (header_row :: rows))
  = for_each read_row ∅ (filter (λ row, nonempty_row row = true) rows).
Proof.
  unfold read_results_from_csv. cbn [map].
  change (map read_text header_row) with header_row.
  rewrite filter_nonempty_map, for_each_map. apply for_each_ext. intros m row.
  unfold read_row, row_date, row_id, row_get.
  change (last_index "Date" header_row) with (Some 0%nat).
  change (last_index "Id" header_row) with (Some 1%nat).
  cbv beta iota. unfold csv_row. rewrite bind_ret, !lookup_map.
  destruct (strptime (read_text <$> row !! 0%nat)) as [t|e]; reflexivity.
Qed.

Lemma save_results_rows findings now f :
  save_results findings now f
  = Some ((if bool_decide (is_Some f) then default [] f else [header_row])
          ++ map (result_row now) findings).
Proof.
  unfold save_results.
  assert (E : ∀ started,
             foldl (λ rows find, rows ++ [result_row now find]) started findings
             = started ++ map (result_row now) findings).
  { induction findings as [|p ps IH]; intros started; cbn.
    - rewrite app_nil_r. reflexivity.
    - rewrite IH, <- app_assoc. reflexivity. }
  rewrite E. destruct f as [rows|]; cbn; reflexivity.
Qed.

Lemma save_results_header_ok findings now f :
  header_ok f → header_ok (save_results findings now f).
Proof.
  rewrite save_results_rows. intros [-> | [rows ->]]; right; cbn; eauto.
Qed.

Lemma records_save_results findings now f :
  header_ok f →
  records (save_results findings now f) = records f ++ map (result_row now) findings.
Proof.
  rewrite save_results_rows. intros [-> | [rows ->]]; reflexivity.
Qed.

Lemma load_history_header f :
  header_ok f →
  load_history f = for_each read_row ∅ (filter (λ row, nonempty_row row = true) (records f)).
Proof.
  intros [-> | [rows ->]]; [reflexivity|].
  unfold load_history. cbn [records]. rewrite <- read_results_header.
  rewrite bool_decide_eq_true_2 by eauto. reflexivity.
Qed.

Lemma filter_result_rows now ps :
  filter (λ row, nonempty_row row = true) (map (result_row now) ps) = map (result_row now) ps.
Proof.
  induction ps as [|p ps IH]; [reflexivity|].
  cbn [map]. rewrite filter_cons_True by reflexivity. rewrite IH. reflexivity.
Qed.

Lemma read_row_result_row now p m :
  valid_datetime now = true →
  read_row m (result_row now p) = Ok (<[read_key p := now]> m).
Proof.
  intros Hv. unfold read_row, row_date, row_id, result_row.
  cbn [lookup list_lookup fmap option_fmap option_map].
  rewrite read_text_strftime, strptime_strftime by assumption. reflexivity.
Qed.

Lemma read_key_plain p : no_cr (csv_cell (posting_id p)) = true → read_key p = record_key p.
Proof. intros H. unfold read_key, record_key. rewrite read_text_no_cr by exact H. reflexivity. Qed.

Lemma read_keys_plain ps :
  Forall (λ p, no_cr (csv_cell (posting_id p)) = true) ps →
  map read_key ps = map record_key ps.
Proof.
  induction 1 as [|p ps Hp _ IH]; [reflexivity|].
  cbn [map]. rewrite IH, read_key_plain by exact Hp. reflexivity.
Qed.

Lemma read_new_rows now ps m :
  valid_datetime now = true →
  for_each read_row m (map (result_row now) ps)
  = Ok (foldl (λ m p, <[read_key p := now]> m) m ps).
Proof.
  intros Hv. revert m. induction ps as [|p ps IH]; intros m; [reflexivity|].
  cbn [map for_each foldl]. rewrite read_row_result_row by assumption. cbn. apply IH.
Qed.

Lemma lookup_foldl_insert (now : datetime) (ps : list Posting)
    (m : gmap (option string) datetime) (k : option string) :
  foldl (λ m p, <[read_key p := now]> m) m ps !! k
  = if bool_decide (k ∈ map read_key ps) then Some now else m !! k.
Proof.
  revert m. induction ps as [|p ps IH]; intros m; cbn [foldl map].
  - rewrite bool_decide_eq_false_2 by (apply not_elem_of_nil). reflexivity.
  - rewrite IH. destruct (decide (k ∈ map read_key ps)) as [Hin|Hin].
    + rewrite !bool_decide_eq_true_2; [reflexivity | by apply elem_of_cons; right | done].
    + rewrite (bool_decide_eq_false_2 _ Hin).
      destruct (decide (k = read_key p)) as [->|Hne].
      * rewrite lookup_insert_eq, bool_decide_eq_true_2; [reflexivity | by apply elem_of_cons; left].
      * rewrite lookup_insert_ne by congruence.
        rewrite bool_decide_eq_false_2; [reflexivity|].
        rewrite elem_of_cons. intros [?|?]; contradiction.
Qed.

Lemma size_foldl_insert (now : datetime) (ps : list Posting)
    (m : gmap (option string) datetime) :
  NoDup (map read_key ps) →
  (∀ p, p ∈ ps → m !! read_key p = None) →
  size (foldl (λ m p, <[read_key p := now]> m) m ps) = (size m + List.length ps)%nat.
Proof.
  revert m. induction ps as [|p ps IH]; intros m Hnd Hfresh; cbn [foldl List.length map] in *.
  - lia.
  - apply NoDup_cons in Hnd as [Hp Hnd]. rewrite IH; [|assumption|].
    + rewrite map_size_insert_None by (apply Hfresh; by apply elem_of_cons; left). lia.
    + intros q Hq. rewrite lookup_insert_ne.
      * apply Hfresh. by apply elem_of_cons; right.
      * intros E. apply Hp. rewrite E. apply list_elem_of_fmap. eauto.
Qed.

Lemma read_row_ok (m : gmap (option string) datetime) (r : csv_row) (t : datetime) :
  row_date r = Ok t → read_row m r = Ok (<[row_id r := t]> m).
Proof. unfold read_row. intros ->. reflexivity. Qed.

Lemma read_rows_other (l : list csv_row) (m m' : gmap (option string) datetime)
    (k : option string) :
  for_each read_row m l = Ok m' →
  (∀ r, r ∈ l → row_id r ≠ k) →
  m' !! k = m !! k.
Proof.
  revert m. induction l as [|r l IH]; intros m E Hk.
  - cbn in E. congruence.
  - rewrite for_each_cons in E. apply bind_Ok in E as (m1 & E1 & E).
    apply bind_Ok in E1 as (t & _ & E1). injection E1 as <-.
    rewrite (IH _ E).
    + apply lookup_insert_ne. apply Hk. by apply elem_of_cons; left.
    + intros r' Hr'. apply Hk. by apply elem_of_cons; right.
Qed.

Lemma read_rows_total (rows : list csv_row) (m : gmap (option string) datetime) :
  Forall (λ r, r = [] ∨ ∃ t, row_date r = Ok t) rows →
  ∃ m', for_each read_row m (filter (λ row, nonempty_row row = true) rows) = Ok m'.
Proof.
  intros H. revert m. induction H as [|r rows Hr _ IH]; intros m.
  - exists m. reflexivity.
  - destruct Hr as [-> | [t Ht]].
    + rewrite filter_cons_False by (cbn; discriminate). apply IH.
    + destruct r as [|c r]; [by inversion Ht|].
      rewrite filter_cons_True by reflexivity.
      rewrite for_each_cons, (read_row_ok _ _ _ Ht). cbn. apply IH.
Qed.

(** C8: in a store whose data rows all carry a readable date, [Load]
    succeeds and binds the identifier of a row to the date of that row
    whenever no later row has the same identifier: of several records with
    one identifier the last one wins. *)
Theorem load_keeps_last_record (rows : list csv_row) :
  Forall (λ r, r = [] ∨ ∃ t, row_date r = Ok t) rows →
  ∃ m, read_results_from_csv (Some (header_row :: rows)) = Ok m
       ∧ ∀ pre row post t,
           rows = pre ++ row :: post →
           row_date row = Ok t →
           (∀ r, r ∈ post → row_id r ≠ row_id row) →
           m !! row_id row = Some t.
Proof.
  intros Hrows. rewrite read_results_header.
  destruct (read_rows_total rows ∅ Hrows) as [m Hm]. exists m. split; [exact Hm|].
  intros pre row post t -> Ht Hlast.
  assert (Hne : nonempty_row row = true) by (destruct row; [by inversion Ht | reflexivity]).
  rewrite filter_app, filter_cons_True in Hm by exact Hne.
  rewrite for_each_app in Hm.
  apply bind_Ok in Hm as (m1 & _ & Hm).
  rewrite for_each_cons, (read_row_ok _ _ _ Ht) in Hm. cbn in Hm.
  rewrite (read_rows_other _ _ _ (row_id row) Hm).
  - apply lookup_insert_eq.
  - intros r Hr. apply Hlast. apply list_elem_of_filter in Hr. tauto.
Qed.

Lemma load_keeps_last_record_witness :
  ∃ m, read_results_from_csv sample_store = Ok m
       ∧ m !! Some "A" = Some (mkDatetime 2024 11 3 10 35 0)
       ∧ m !! Some "B" = Some (mkDatetime 2024 11 2 9 30 0).
Proof.
  destruct (load_keeps_last_record (records sample_store)) as (m & E & L).
  { cbn [records sample_store].
    repeat (constructor; [right; eexists; vm_compute; reflexivity|]). constructor. }
  exists m. split; [exact E|]. split.
  - apply (L [ ["2024-11-01 08:00:00"; "A"; "Zelda"; "25.00"; "u"];
               ["2024-11-02 09:30:00"; "B"; "Mario"; "30.00"; "u"] ]
             ["2024-11-03 10:35:00"; "A"; "Zelda"; "20.00"; "u"] []).
    + reflexivity.
    + vm_compute. reflexivity.
    + intros r Hr. inversion Hr.
  - apply (L [ ["2024-11-01 08:00:00"; "A"; "Zelda"; "25.00"; "u"] ]
             ["2024-11-02 09:30:00"; "B"; "Mario"; "30.00"; "u"]
             [ ["2024-11-03 10:35:00"; "A"; "Zelda"; "20.00"; "u"] ]).
    + reflexivity.
    + vm_compute. reflexivity.
    + intros r Hr. apply list_elem_of_singleton in Hr. subst r. discriminate.
Defined.

(** C6: [save_results] with no findings adds no record: the data rows are
    the ones that were there, and the history read afterwards is the history
    read before (a file that did not exist now holds the header line only). *)
Theorem save_results_nothing (now : datetime) (f : csv_file) :
  records (save_results [] now f) = records f
  ∧ load_history (save_results [] now f) = load_history f.
Proof.
  rewrite save_results_rows. cbn [map]. rewrite app_nil_r.
  destruct f as [rows|]; cbn; split; reflexivity.
Qed.

(** C5, as the code has it: on a store that does not exist yet or starts
    with the header line, and that [Load] reads as [m]: after [save_results]
    of postings whose identifiers hold no carriage return, are pairwise
    distinct and are not in [m], at a clock reading [now], [Load] succeeds
    with a mapping that binds each of these identifiers to [now], keeps
    every binding of [m], has no other key, and has as many more keys as
    there were postings. *)
Theorem load_after_append (f : csv_file) (m : gmap (option string) datetime)
    (ps : list Posting) (now : datetime) :
  header_ok f →
  load_history f = Ok m →
  clock_ok now = true →
  Forall (λ p, no_cr (csv_cell (posting_id p)) = true) ps →
  NoDup (map record_key ps) →
  (∀ p, p ∈ ps → m !! record_key p = None) →
  ∃ m', load_history (save_results ps now f) = Ok m'
        ∧ (∀ p, p ∈ ps → m' !! record_key p = Some now)
        ∧ (∀ k t, m !! k = Some t → m' !! k = Some t)
        ∧ (∀ k, k ∉ map record_key ps → m' !! k = m !! k)
        ∧ size m' = (size m + List.length ps)%nat.
Proof.
  intros Hh Hm Hclock Hplain Hnd Hfresh.
  apply andb_true_iff in Hclock as [Hv _].
  rewrite <- (read_keys_plain ps Hplain) in Hnd |- *.
  assert (Hfresh' : ∀ p, p ∈ ps → m !! read_key p = None).
  { intros p Hp. rewrite read_key_plain; [auto|].
    rewrite Forall_forall in Hplain. auto. }
  assert (Hkey : ∀ p, p ∈ ps → record_key p = read_key p).
  { intros p Hp. symmetry. apply read_key_plain.
    rewrite Forall_forall in Hplain. auto. }
  rewrite load_history_header in Hm by assumption.
  rewrite load_history_header by (apply save_results_header_ok; assumption).
  rewrite records_save_results by assumption.
  rewrite filter_app, filter_result_rows, for_each_app, Hm. cbn.
  rewrite read_new_rows by assumption.
  eexists. split; [reflexivity|]. repeat split.
  - intros p Hp. rewrite (Hkey p Hp), lookup_foldl_insert, bool_decide_eq_true_2;
      [reflexivity|]. apply list_elem_of_fmap. eauto.
  - intros k t Hk. rewrite lookup_foldl_insert, bool_decide_eq_false_2; [exact Hk|].
    intros Hin. apply list_elem_of_fmap in Hin as (p & -> & Hp).
    rewrite Hfresh' in Hk by assumption. discriminate.
  - intros k Hk. rewrite lookup_foldl_insert, bool_decide_eq_false_2; done.
  - apply size_foldl_insert; assumption.
Qed.

Lemma load_after_append_witness :
  ∃ m', load_history (save_results [sample_posting "C"; sample_posting "D"] sample_now
                                   sample_store) = Ok m'
        ∧ m' !! Some "C" = Some sample_now
        ∧ m' !! Some "A" = Some (mkDatetime 2024 11 3 10 35 0)
        ∧ size m' = 4%nat.
Proof.
  destruct (load_after_append sample_store
              {[ Some "A" := mkDatetime 2024 11 3 10 35 0;
                 Some "B" := mkDatetime 2024 11 2 9 30 0 ]}
              [sample_posting "C"; sample_posting "D"] sample_now)
    as (m' & E & Hnew & Hold & _ & Hsize).
  - right. eexists. reflexivity.
  - vm_compute. reflexivity.
  - vm_compute. reflexivity.
  - repeat constructor.
  - cbn. repeat constructor; rewrite ?elem_of_cons, ?elem_of_nil; intros H;
      repeat destruct H as [H|H]; try discriminate H; exact H.
  - intros p Hp. repeat (apply elem_of_cons in Hp as [-> | Hp]); [| |inversion Hp];
      vm_compute; reflexivity.
  - exists m'. split; [exact E|]. split; [|split].
    + apply (Hnew (sample_posting "C")). by apply elem_of_cons; left.
    + apply Hold. vm_compute. reflexivity.
    + rewrite Hsize. vm_compute. reflexivity.
Defined.

(** C5 as stated fails on a results file that exists but is empty:
    [save_results] writes no header into it, the one record appended is
    read as the header line, and [Load] afterwards is as empty as before. *)
Lemma append_to_empty_file_is_lost :
  load_history (Some []) = Ok ∅
  ∧ load_history (save_results [sample_posting "A"] sample_now (Some [])) = Ok ∅
  ∧ ¬ ∃ m', load_history (save_results [sample_posting "A"] sample_now (Some [])) = Ok m'
            ∧ m' !! record_key (sample_posting "A") = Some sample_now.
Proof.
  split; [reflexivity|]. split; [reflexivity|].
  intros (m' & E & H). change (Ok ∅ = Ok m') in E. injection E as <-.
  rewrite lookup_empty in H. discriminate H.
Qed.

(** * Postings *)

Lemma string_app_assoc (a b c : string) : (a +:+ b) +:+ c = a +:+ (b +:+ c).
Proof.
  induction a as [|x a IH]; [reflexivity|].
  change (String x ((a +:+ b) +:+ c) = String x (a +:+ (b +:+ c))).
  rewrite IH. reflexivity.
Qed.

Lemma required_TypeError k kvs e : required k kvs = Raise e → e = TypeError.
Proof. unfold required. destruct (dict_lookup k kvs); congruence. Qed.

Lemma required_Some k kvs v : required k kvs = Ok v → dict_lookup k kvs = Some v.
Proof. unfold required. destruct (dict_lookup k kvs); congruence. Qed.

(** What a successful construction says about the record. *)
Lemma Posting_init_Ok post base p :
  Posting_init post base = Ok p →
  ∃ kvs outlet,
    post = PDict kvs
    ∧ dict_lookup "base_url" kvs = None
    ∧ dict_lookup "self" kvs = None
    ∧ dict_lookup "posting_id" kvs = Some (posting_id p)
    ∧ dict_lookup "pim_id" kvs = Some (pim_id p)
    ∧ dict_lookup "name" kvs = Some (name p)
    ∧ dict_lookup "price" kvs = Some (price p)
    ∧ dict_lookup "outlet" kvs = Some outlet
    ∧ base_url p = base
    ∧ outlet_id p = (if truthy outlet
                     then match outlet with PDict o => dict_get "id" o | _ => PNone end
                     else PNone).
Proof.
  destruct post as [| | | | | |kvs]; try discriminate. unfold Posting_init.
  case_bool_decide as Hb; [discriminate|]. case_bool_decide as Hs; [discriminate|].
  intros H.
  apply bind_Ok in H as (v1 & E1 & H). apply bind_Ok in H as (v2 & E2 & H).
  apply bind_Ok in H as (v3 & E3 & H). apply bind_Ok in H as (v4 & E4 & H).
  apply bind_Ok in H as (v5 & E5 & H). apply bind_Ok in H as (v6 & E6 & H).
  apply bind_Ok in H as (v7 & E7 & H). apply bind_Ok in H as (v8 & E8 & H).
  apply bind_Ok in H as (v9 & E9 & H). apply bind_Ok in H as (v10 & E10 & H).
  injection H as <-. cbn.
  exists kvs, v9. apply required_Some in E1, E2, E3, E6, E9.
  repeat split; try assumption.
  - destruct (dict_lookup "base_url" kvs); [exfalso; eauto | reflexivity].
  - destruct (dict_lookup "self" kvs); [exfalso; eauto | reflexivity].
  - destruct (truthy v9); [|congruence].
    destruct v9; try discriminate. congruence.
Qed.

(** A record without the key [outlet] is no posting: the parameter has no
    default. *)
Lemma Posting_init_without_outlet kvs base :
  dict_lookup "outlet" kvs = None →
  Posting_init (PDict kvs) base = Raise TypeError.
Proof.
  intros Hno. unfold Posting_init.
  case_bool_decide; [reflexivity|]. case_bool_decide; [reflexivity|].
  repeat match goal with
         | |- context [required ?k kvs] =>
             lazymatch k with
             | "outlet" => fail
             | _ => destruct (required k kvs) as [?|?] eqn:?; cbn;
                    [|f_equal; eapply required_TypeError; eassumption]
             end
         end.
  unfold required. rewrite Hno. reflexivity.
Qed.

(** C10: a posting made from a record whose [outlet] is missing, [None] or
    otherwise false has [None] for outlet identifier, and its direct URL is
    the base, [?outletIds=None&text=] and the product identifier.  (No
    posting is made from a record without the key, see
    [Posting_init_without_outlet].) *)
Theorem falsy_outlet_gives_None kvs base p :
  Posting_init (PDict kvs) base = Ok p →
  (∀ v, dict_lookup "outlet" kvs = Some v → truthy v = false) →
  outlet_id p = PNone
  ∧ get_direct_url p = base +:+ "?outletIds=None&text=" +:+ py_str (pim_id p)
  ∧ ∃ pre post, get_direct_url p = pre +:+ "outletIds=None" +:+ post.
Proof.
  intros Hp Hfalsy.
  apply Posting_init_Ok in Hp
    as (kvs' & outlet & [= <-] & _ & _ & _ & _ & _ & _ & Ho & Hb & Hid).
  rewrite (Hfalsy _ Ho) in Hid.
  assert (Hurl : get_direct_url p = base +:+ "?outletIds=None&text=" +:+ py_str (pim_id p)).
  { unfold get_direct_url. rewrite Hid, Hb. reflexivity. }
  split; [exact Hid|]. split; [exact Hurl|].
  exists (base +:+ "?"), ("&text=" +:+ py_str (pim_id p)). rewrite Hurl.
  rewrite string_app_assoc. reflexivity.
Qed.

Lemma falsy_outlet_gives_None_witness :
  ∃ p, Posting_init (raw_posting "A" (PDict [])) base_sa = Ok p
       ∧ outlet_id p = PNone
       ∧ get_direct_url p
         = "https://www.saturn.de/de/data/fundgrube?outletIds=None&text=2688430".
Proof.
  eexists. split; [vm_compute; reflexivity|].
  destruct (falsy_outlet_gives_None
              [("posting_id", PStr "A"); ("pim_id", PStr "2688430"); ("name", PStr "Zelda");
               ("original_url", PStr "/p/1"); ("posting_text", PStr "ok");
               ("price", PStr "25.00"); ("shipping_cost", PInt 0);
               ("discount_in_percent", PInt 40); ("outlet", PDict [])]
              base_sa
              (mkPosting base_sa (PStr "A") (PStr "2688430") (PStr "Zelda") (PStr "/p/1")
                         (PStr "ok") (PStr "25.00") (PInt 0) (PInt 40) PNone))
    as (Hid & Hurl & _).
  - vm_compute. reflexivity.
  - intros v Hv. vm_compute in Hv. injection Hv as <-. reflexivity.
  - split; [exact Hid | exact Hurl].
Defined.

(** * The run *)

Lemma history_get_hashable (old_dict : gmap (option string) datetime) (k : pyval) :
  hashable k = true →
  ∃ entry, history_get old_dict k = Ok entry
           ∧ (entry = None ↔ absent_from old_dict k = true).
Proof.
  destruct k; cbn; try discriminate; intros _; eexists; (split; [reflexivity|]);
    rewrite ?bool_decide_eq_true; tauto.
Qed.

Lemma scan_post_constructed old_dict base findings post p :
  Posting_init post base = Ok p →
  hashable (posting_id p) = true →
  scan_post old_dict base findings post
  = Ok (findings ++ filter (λ p, absent_from old_dict (posting_id p) = true) [p]).
Proof.
  intros Hp Hh. unfold scan_post. rewrite Hp, bind_ret.
  destruct (history_get_hashable old_dict _ Hh) as (entry & -> & Hentry).
  rewrite bind_ret. destruct entry as [t|].
  - rewrite filter_cons_False, filter_nil, app_nil_r; [reflexivity|].
    intros Habs. apply Hentry in Habs. discriminate.
  - rewrite filter_cons_True by (apply Hentry; reflexivity). reflexivity.
Qed.

Lemma scan_posts old_dict base posting_list : ∀ findings ps,
  construct_all base posting_list = Ok ps →
  Forall (λ p, hashable (posting_id p) = true) ps →
  for_each (scan_post old_dict base) findings posting_list
  = Ok (findings ++ filter (λ p, absent_from old_dict (posting_id p) = true) ps).
Proof.
  induction posting_list as [|post rest IH]; intros findings ps Hc Hh.
  - injection Hc as <-. cbn. rewrite app_nil_r. reflexivity.
  - cbn [construct_all] in Hc.
    apply bind_Ok in Hc as (p & Hp & Hc). apply bind_Ok in Hc as (ps' & Hps' & Hc).
    injection Hc as <-. apply Forall_cons in Hh as [Hhp Hh].
    rewrite for_each_cons, (scan_post_constructed _ _ _ _ _ Hp Hhp), bind_ret.
    rewrite (IH _ _ Hps' Hh), <- app_assoc.
    change (p :: ps') with ([p] ++ ps'). rewrite filter_app. reflexivity.
Qed.

Lemma scan_endpoint_fetched net old_dict fil search_text n findings base ps :
  fetch_endpoint net fil search_text n base = Ok ps →
  Forall (λ p, hashable (posting_id p) = true) ps →
  scan_endpoint net old_dict fil search_text (n, findings) base
  = Ok (S n, findings ++ filter (λ p, absent_from old_dict (posting_id p) = true) ps).
Proof.
  unfold fetch_endpoint, scan_endpoint. intros Hf Hh. cbn [fst snd].
  apply bind_Ok in Hf as (js & E1 & Hf). apply bind_Ok in Hf as (pl & E2 & Hf).
  rewrite E1, bind_ret, E2, bind_ret, (scan_posts _ _ _ _ _ Hf Hh). reflexivity.
Qed.

Lemma scan_filter_eq net old_dict st fil :
  scan_filter net old_dict st fil
  = py_quote (search fil) ≫= λ search_text,
      for_each (scan_endpoint net old_dict fil search_text) st [base_mm; base_sa].
Proof. reflexivity. Qed.

Lemma scan_filters net old_dict filter_list : ∀ n findings ps,
  fetched_from net n filter_list = Ok ps →
  Forall (λ p, hashable (posting_id p) = true) ps →
  for_each (scan_filter net old_dict) (n, findings) filter_list
  = Ok ((n + 2 * List.length filter_list)%nat,
        findings ++ filter (λ p, absent_from old_dict (posting_id p) = true) ps).
Proof.
  induction filter_list as [|fil rest IH]; intros n findings ps Hf Hh.
  - injection Hf as <-. cbn. rewrite app_nil_r, Nat.add_0_r. reflexivity.
  - cbn [fetched_from] in Hf.
    apply bind_Ok in Hf as (st & Hq & Hf). apply bind_Ok in Hf as (mm & Hmm & Hf).
    apply bind_Ok in Hf as (sa & Hsa & Hf). apply bind_Ok in Hf as (more & Hmore & Hf).
    injection Hf as <-.
    apply Forall_app in Hh as [Hhm Hh]. apply Forall_app in Hh as [Hhs Hh].
    rewrite for_each_cons, scan_filter_eq, Hq, bind_ret.
    rewrite for_each_cons, (scan_endpoint_fetched _ _ _ _ _ _ _ _ Hmm Hhm), bind_ret.
    rewrite for_each_cons, (scan_endpoint_fetched _ _ _ _ _ _ _ _ Hsa Hhs), bind_ret.
    cbn [for_each]. rewrite bind_ret.
    rewrite (IH _ _ _ Hmore Hh). rewrite !filter_app, <- !app_assoc.
    do 2 f_equal. cbn [List.length]. lia.
Qed.

(** C2: when the requests of a run yield the postings [ps] (all with an
    identifier that can be a dict key), the loop returns, for any history,
    the postings of [ps] whose identifier is no key of the history, in the
    order of [ps]: filter by filter, first endpoint before second, each
    response in its own order. *)
Theorem findings_are_the_new_postings net old_dict filter_list ps :
  fetched_postings net filter_list = Ok ps →
  Forall (λ p, hashable (posting_id p) = true) ps →
  collect_findings net old_dict filter_list
  = Ok (filter (λ p, absent_from old_dict (posting_id p) = true) ps).
Proof.
  intros Hf Hh. unfold collect_findings.
  rewrite (scan_filters _ _ _ _ _ _ Hf Hh), bind_ret. rewrite app_nil_l. reflexivity.
Qed.

Lemma findings_are_the_new_postings_witness :
  ∃ a b c a',
    fetched_postings net_abca [sample_filter] = Ok [a; b; c; a']
    ∧ collect_findings net_abca {[ Some "B" := sample_now ]} [sample_filter] = Ok [a; c; a']
    ∧ collect_findings net_abca ∅ [sample_filter] = Ok [a; b; c; a'].
Proof.
  pose proof (findings_are_the_new_postings net_abca ∅ [sample_filter]) as H0.
  pose proof (findings_are_the_new_postings net_abca {[ Some "B" := sample_now ]}
                [sample_filter]) as H1.
  do 4 eexists. split; [vm_compute; reflexivity|]. split.
  - rewrite (H1 _ ltac:(vm_compute; reflexivity)).
    + vm_compute. reflexivity.
    + repeat constructor.
  - rewrite (H0 _ ltac:(vm_compute; reflexivity)).
    + vm_compute. reflexivity.
    + repeat constructor.
Defined.

Lemma for_each_inv {A B} (P : A → Prop) (f : A → B → result A) l : ∀ a r,
  (∀ a x a', P a → f a x = Ok a' → P a') →
  P a → for_each f a l = Ok r → P r.
Proof.
  induction l as [|x l IH]; intros a r Hstep Ha E.
  - cbn in E. congruence.
  - rewrite for_each_cons in E. apply bind_Ok in E as (a' & E1 & E). eauto.
Qed.

(** Whatever the loop returns was looked up in the history and not found. *)
Lemma collect_findings_absent net old_dict filter_list findings :
  collect_findings net old_dict filter_list = Ok findings →
  Forall (λ p, history_get old_dict (posting_id p) = Ok None) findings.
Proof.
  unfold collect_findings. intros E. apply bind_Ok in E as ([n fs] & E & [= <-]).
  revert E. apply (for_each_inv (λ st, Forall _ (snd st))); [|constructor].
  intros st fil st' Hst E. rewrite scan_filter_eq in E.
  apply bind_Ok in E as (search_text & _ & E).
  revert E. apply (for_each_inv (λ st, Forall _ (snd st))); [|exact Hst].
  clear. intros st base st' Hst E. unfold scan_endpoint in E.
  apply bind_Ok in E as (js & _ & E). apply bind_Ok in E as (pl & _ & E).
  apply bind_Ok in E as (fs & E & [= <-]). cbn [snd].
  revert E. apply for_each_inv; [|exact Hst].
  clear. intros fs post fs' Hfs E. unfold scan_post in E.
  apply bind_Ok in E as (p & _ & E). apply bind_Ok in E as (entry & He & [= <-]).
  destruct entry; [exact Hfs|].
  apply Forall_app. split; [exact Hfs|]. constructor; [exact He | constructor].
Qed.

Lemma read_rows_mono (l : list csv_row) (m m' : gmap (option string) datetime)
    (k : option string) :
  for_each read_row m l = Ok m' → is_Some (m !! k) → is_Some (m' !! k).
Proof.
  revert m. induction l as [|r l IH]; intros m E Hk.
  - cbn in E. congruence.
  - rewrite for_each_cons in E. apply bind_Ok in E as (m1 & E1 & E).
    apply bind_Ok in E1 as (t & _ & [= <-]).
    apply (IH _ E). rewrite lookup_insert. case_decide; eauto.
Qed.

Lemma read_rows_keys (l : list csv_row) (m m' : gmap (option string) datetime)
    (r : csv_row) :
  for_each read_row m l = Ok m' → r ∈ l → is_Some (m' !! row_id r).
Proof.
  revert m. induction l as [|r' l IH]; intros m E Hr.
  - inversion Hr.
  - rewrite for_each_cons in E. apply bind_Ok in E as (m1 & E1 & E).
    apply bind_Ok in E1 as (t & _ & [= <-]).
    apply elem_of_cons in Hr as [-> | Hr]; [|eauto].
    apply (read_rows_mono _ _ _ _ E). rewrite lookup_insert_eq. eauto.
Qed.

Lemma stored_ids_loaded f m k :
  header_ok f → load_history f = Ok m → k ∈ stored_ids f → is_Some (m !! k).
Proof.
  intros Hh Hm Hk. rewrite load_history_header in Hm by assumption.
  apply list_elem_of_fmap in Hk as (r & -> & Hr).
  apply (read_rows_keys _ _ _ _ Hm Hr).
Qed.

Lemma stored_ids_save_results findings now f :
  header_ok f →
  stored_ids (save_results findings now f) = stored_ids f ++ map read_key findings.
Proof.
  intros Hh. unfold stored_ids. rewrite records_save_results by assumption.
  rewrite filter_app, filter_result_rows, map_app. f_equal.
  induction findings as [|p ps IH]; [reflexivity|]. cbn [map]. rewrite IH. reflexivity.
Qed.

Lemma mail_notify_keeps_results new_count posting_list error w :
  old_results_file (snd (mail_notify new_count posting_list error w)) = old_results_file w.
Proof.
  unfold mail_notify.
  repeat (case_match; cbn [fst snd set_previous_error deliver old_results_file];
          try reflexivity; simplify_eq).
  all: cbn; reflexivity.
Qed.

(** What one run does to the results file. *)
Lemma run_results_file w i :
  old_results_file (run w i) = old_results_file w
  ∨ ∃ old_dict findings,
      load_history (old_results_file w) = Ok old_dict
      ∧ collect_findings (run_net i) old_dict (run_filters i) = Ok findings
      ∧ findings ≠ []
      ∧ old_results_file (run w i)
        = save_results findings (run_now i) (old_results_file w).
Proof.
  unfold run, main.
  destruct (load_history (old_results_file w)) as [old_dict|e] eqn:El; [|left; reflexivity].
  destruct (collect_findings _ _ _) as [findings|e] eqn:Ec; [|left; reflexivity].
  destruct findings as [|p ps]; [left; reflexivity|].
  right. exists old_dict, (p :: ps).
  split; [reflexivity|]. split; [exact Ec|]. split; [discriminate|].
  cbn [List.length Nat.ltb Nat.leb]. rewrite mail_notify_keeps_results. reflexivity.
Qed.

Lemma run_keeps_distinct w i :
  header_ok (old_results_file w) →
  NoDup (stored_ids (old_results_file w)) →
  new_ids_distinct w i →
  header_ok (old_results_file (run w i)) ∧ NoDup (stored_ids (old_results_file (run w i))).
Proof.
  intros Hh Hnd Hnew.
  destruct (run_results_file w i) as [-> | (old_dict & findings & Hl & Hc & _ & ->)];
    [auto|].
  split; [apply save_results_header_ok; assumption|].
  destruct (Hnew _ _ Hl Hc) as [Hids Hstr].
  pose proof (collect_findings_absent _ _ _ _ Hc) as Habs.
  rewrite stored_ids_save_results by assumption.
  apply NoDup_app. split; [exact Hnd|]. split.
  - intros k Hk Hin. apply list_elem_of_fmap in Hin as (p & -> & Hp).
    destruct (stored_ids_loaded _ _ _ Hh Hl Hk) as [t Ht].
    rewrite Forall_forall in Habs, Hstr.
    specialize (Habs p Hp). specialize (Hstr p Hp).
    unfold read_key in Ht. destruct (posting_id p) as [| | | |s| |]; try discriminate Hstr.
    cbn [plain_id] in Hstr. cbn [csv_cell py_str] in Ht.
    rewrite read_text_no_cr in Ht by exact Hstr. cbn in Habs. congruence.
  - clear -Hids Hstr. induction findings as [|p ps IH]; [constructor|].
    cbn [map] in *. apply NoDup_cons in Hids as [Hp Hids].
    apply Forall_cons in Hstr as [Hs Hstr].
    constructor; [|auto].
    intros Hin. apply Hp. apply list_elem_of_fmap in Hin as (q & Eq & Hq).
    apply list_elem_of_fmap. exists q. split; [|exact Hq].
    rewrite Forall_forall in Hstr. specialize (Hstr q Hq).
    unfold read_key in Eq.
    destruct (posting_id p) as [| | | |s| |]; try discriminate Hs.
    destruct (posting_id q) as [| | | |s'| |]; try discriminate Hstr.
    cbn [plain_id] in Hs, Hstr. cbn [csv_cell py_str] in Eq.
    rewrite !read_text_no_cr in Eq by assumption. congruence.
Qed.

(** C1, as the code has it: over any sequence of runs in which each run
    finds new only postings with pairwise distinct string identifiers that
    hold no carriage return, a store that is absent or starts with the
    header line and has no two records with one identifier never gets two.
    The loop itself does not look for repeats among the postings of a
    run. *)
Theorem no_duplicates_without_repeats w inputs :
  header_ok (old_results_file w) →
  NoDup (stored_ids (old_results_file w)) →
  runs_distinct w inputs →
  header_ok (old_results_file (runs w inputs))
  ∧ NoDup (stored_ids (old_results_file (runs w inputs))).
Proof.
  revert w. induction inputs as [|i rest IH]; intros w Hh Hnd Hruns.
  - split; assumption.
  - destruct Hruns as [Hi Hrest]. cbn [runs foldl].
    destruct (run_keeps_distinct w i Hh Hnd Hi) as [Hh' Hnd'].
    apply IH; assumption.
Qed.

(** C1 as stated fails: one run in which both endpoints return the posting
    [A] writes two records for [A] into a new store. *)
Lemma duplicate_identifier_persisted :
  stored_ids (old_results_file (runs sample_world [run_same]))
  = [Some "A"; Some "A"]
  ∧ ¬ NoDup (stored_ids (old_results_file (runs sample_world [run_same]))).
Proof.
  assert (E : stored_ids (old_results_file (runs sample_world [run_same]))
              = [Some "A"; Some "A"]) by (vm_compute; reflexivity).
  split; [exact E|]. rewrite E. intros H.
  apply NoDup_cons in H as [H _]. apply H. by apply elem_of_cons; left.
Qed.

Lemma no_duplicates_without_repeats_witness :
  stored_ids (old_results_file (runs sample_world [run_abcd; run_aebf]))
  = [Some "A"; Some "B"; Some "C"; Some "D"; Some "E"; Some "F"]
  ∧ header_ok (old_results_file (runs sample_world [run_abcd; run_aebf]))
  ∧ NoDup (stored_ids (old_results_file (runs sample_world [run_abcd; run_aebf]))).
Proof.
  split; [vm_compute; reflexivity|].
  apply (no_duplicates_without_repeats sample_world [run_abcd; run_aebf]).
  - left. reflexivity.
  - constructor.
  - split; [|split; [|exact I]].
    + intros old_dict findings Hl Hc.
      vm_compute in Hl. injection Hl as <-.
      vm_compute in Hc. injection Hc as <-.
      split.
      * cbn [map posting_id].
        repeat (constructor;
                [rewrite ?elem_of_cons, ?elem_of_nil; intros H;
                 repeat destruct H as [H|H]; try discriminate H; exact H|]).
        constructor.
      * repeat constructor.
    + intros old_dict findings Hl Hc.
      assert (El : load_history (old_results_file (run sample_world run_abcd))
                   = Ok {[ Some "A" := sample_now; Some "B" := sample_now;
                           Some "C" := sample_now; Some "D" := sample_now ]})
        by (vm_compute; reflexivity).
      rewrite El in Hl. injection Hl as <-.
      vm_compute in Hc. injection Hc as <-.
      split.
      * cbn [map posting_id].
        repeat (constructor;
                [rewrite ?elem_of_cons, ?elem_of_nil; intros H;
                 repeat destruct H as [H|H]; try discriminate H; exact H|]).
        constructor.
      * repeat constructor.
Defined.

(** C3 as stated fails for runs of the program: with credentials and no
    marker, a run in which a request raises ends with that exception, sends
    nothing and writes no marker; and with a marker in place, a run that
    succeeds without new items sends no "fixed" mail and leaves the marker. *)
Lemma failing_run_is_silent :
  credentials sample_world = true
  ∧ previous_error_file sample_world = None
  ∧ main [sample_filter] net_second_fails sample_now sample_world
    = (Raise (Exn "ConnectionError" []), sample_world)
  ∧ outbox sample_world = []
  ∧ credentials w_marked = true
  ∧ main [sample_filter] net_nothing sample_now w_marked = (Ok tt, w_marked)
  ∧ previous_error_file w_marked = Some "FetchError".
Proof.
  repeat split; vm_compute; reflexivity.
Qed.

(** * Further properties of the history store *)

Lemma read_rows_origin (l : list csv_row) (m m' : gmap (option string) datetime)
    (k : option string) :
  for_each read_row m l = Ok m' →
  is_Some (m' !! k) → is_Some (m !! k) ∨ k ∈ map row_id l.
Proof.
  revert m. induction l as [|r l IH]; intros m E Hk.
  - cbn in E. injection E as <-. left. exact Hk.
  - rewrite for_each_cons in E. apply bind_Ok in E as (m1 & E1 & E).
    apply bind_Ok in E1 as (t & _ & [= <-]).
    destruct (IH _ E Hk) as [H|H].
    + rewrite lookup_insert in H. case_decide as Hd.
      * right. cbn [map]. rewrite <- Hd. by apply elem_of_cons; left.
      * left. exact H.
    + right. cbn [map]. by apply elem_of_cons; right.
Qed.

Lemma read_row_raise (m : gmap (option string) datetime) (r : csv_row) (e : exn) :
  row_date r = Raise e → read_row m r = Raise e.
Proof. unfold read_row. intros ->. reflexivity. Qed.

(** X1: the date cell [save_results] writes is read back by
    [read_results_from_csv] as the clock reading it was printed from. *)
Theorem timestamp_round_trip (now : datetime) (find : Posting) :
  clock_ok now = true →
  strptime (Some (strftime now)) = Ok now
  ∧ row_date (result_row now find) = Ok now.
Proof.
  intros Hc. apply andb_true_iff in Hc as [Hv _].
  split; [apply strptime_strftime; exact Hv|].
  unfold row_date, result_row. cbn [lookup list_lookup fmap option_fmap option_map].
  rewrite read_text_strftime. apply strptime_strftime. exact Hv.
Qed.

Lemma timestamp_round_trip_witness :
  strptime (Some (strftime sample_now)) = Ok sample_now
  ∧ row_date (result_row sample_now (sample_posting "A")) = Ok sample_now.
Proof.
  apply (timestamp_round_trip sample_now (sample_posting "A")). vm_compute. reflexivity.
Defined.

(** X2: [save_results] keeps the rows that are there, writes the header line
    first exactly when the file did not exist, and then one row per finding
    in the order of the findings. *)
Theorem save_results_appends (findings : list Posting) (now : datetime) (f : csv_file) :
  save_results findings now f
  = Some (match f with
          | Some rows => rows
          | None => [header_row]
          end ++ map (result_row now) findings).
Proof.
  rewrite save_results_rows. destruct f; reflexivity.
Qed.

(** X3: what [Load] returns has exactly the identifiers on record for keys. *)
Theorem load_keys_are_stored_ids (f : csv_file) (m : gmap (option string) datetime)
    (k : option string) :
  header_ok f →
  load_history f = Ok m →
  is_Some (m !! k) ↔ k ∈ stored_ids f.
Proof.
  intros Hh Hm. split.
  - intros Hk. rewrite load_history_header in Hm by assumption.
    destruct (read_rows_origin _ _ _ _ Hm Hk) as [H|H]; [|exact H].
    rewrite lookup_empty in H. destruct H as [? H]. discriminate H.
  - apply stored_ids_loaded; assumption.
Qed.

Lemma load_keys_are_stored_ids_witness :
  ∃ m, load_history sample_store = Ok m
       ∧ (is_Some (m !! Some "B") ↔ Some "B" ∈ stored_ids sample_store).
Proof.
  eexists. split; [vm_compute; reflexivity|].
  apply (load_keys_are_stored_ids sample_store).
  - right. eexists. reflexivity.
  - vm_compute. reflexivity.
Defined.

(** X4: one data row whose date cannot be read makes the whole history
    unreadable: [Load] raises what [strptime] raises on the first such
    row. *)
Theorem load_fails_on_bad_row (pre post : list csv_row) (row : csv_row) (e : exn) :
  Forall (λ r, r = [] ∨ ∃ t, row_date r = Ok t) pre →
  row ≠ [] →
  row_date row = Raise e →
  read_results_from_csv (Some (header_row :: pre ++ row :: post)) = Raise e.
Proof.
  intros Hpre Hne He. rewrite read_results_header.
  assert (Hn : nonempty_row row = true) by (destruct row; [contradiction | reflexivity]).
  rewrite filter_app, filter_cons_True, for_each_app by exact Hn.
  destruct (read_rows_total pre ∅ Hpre) as [m ->].
  rewrite bind_ret, for_each_cons, (read_row_raise _ _ _ He). reflexivity.
Qed.

Lemma load_fails_on_bad_row_witness :
  read_results_from_csv
    (Some (header_row :: [["2024-11-01 08:00:00"; "A"; "Zelda"; "25.00"; "u"]]
           ++ ["2024-02-30 08:00:00"; "B"; "Mario"; "30.00"; "u"] :: []))
  = Raise ValueError.
Proof.
  apply (load_fails_on_bad_row [["2024-11-01 08:00:00"; "A"; "Zelda"; "25.00"; "u"]] []).
  - constructor; [|constructor]. right. eexists. vm_compute. reflexivity.
  - discriminate.
  - vm_compute. reflexivity.
Defined.

(** X5: a results file that exists but is empty gets no header line, so the
    single record appended to it is taken for the header and [Load] does
    not see it; appended to a file that does not exist, it is seen, under
    its identifier as that is read back. *)
Theorem empty_file_hides_first_record (p : Posting) (now : datetime) :
  clock_ok now = true →
  load_history (save_results [p] now (Some [])) = Ok ∅
  ∧ ∃ m, load_history (save_results [p] now None) = Ok m ∧ m !! read_key p = Some now.
Proof.
  intros Hc. apply andb_true_iff in Hc as [Hv _]. split; [reflexivity|].
  rewrite load_history_header by (right; eexists; reflexivity).
  rewrite records_save_results by (left; reflexivity).
  cbn [records app map]. rewrite filter_cons_True, filter_nil by reflexivity.
  rewrite for_each_cons, read_row_result_row by exact Hv.
  eexists. split; [reflexivity|]. apply lookup_insert_eq.
Qed.

Lemma empty_file_hides_first_record_witness :
  load_history (save_results [sample_posting "A"] sample_now (Some [])) = Ok ∅
  ∧ ∃ m, load_history (save_results [sample_posting "A"] sample_now None) = Ok m
         ∧ m !! Some "A" = Some sample_now.
Proof.
  apply (empty_file_hides_first_record (sample_posting "A") sample_now).
  vm_compute. reflexivity.
Defined.

(** * Further properties of postings *)

(** X6: [Posting] succeeds on exactly the records of [posting_record_ok],
    and then keeps the endpoint it was given; on every other record it
    raises [TypeError], or [AttributeError] for an outlet that is true but
    no dict. *)
Theorem Posting_init_cases (post : pyval) (base : string) :
  match Posting_init post base with
  | Ok p => posting_record_ok post = true ∧ base_url p = base
  | Raise e => posting_record_ok post = false ∧ (e = TypeError ∨ e = AttributeError)
  end.
Proof.
  destruct post as [| | | | | |kvs]; try (cbn; auto; fail).
  unfold Posting_init, posting_record_ok, named_parameters, has_key, required.
  cbn [forallb].
  destruct (dict_lookup "base_url" kvs); [cbn; auto|].
  destruct (dict_lookup "self" kvs); [cbn; auto|].
  destruct (dict_lookup "posting_id" kvs); [|cbn; auto].
  destruct (dict_lookup "pim_id" kvs); [|cbn; auto].
  destruct (dict_lookup "name" kvs); [|cbn; auto].
  destruct (dict_lookup "original_url" kvs); [|cbn; auto].
  destruct (dict_lookup "posting_text" kvs); [|cbn; auto].
  destruct (dict_lookup "price" kvs); [|cbn; auto].
  destruct (dict_lookup "shipping_cost" kvs); [|cbn; auto].
  destruct (dict_lookup "discount_in_percent" kvs); [|cbn; auto].
  destruct (dict_lookup "outlet" kvs) as [outlet|]; [|cbn; auto].
  cbn. destruct outlet as [|b|n|r|s|xs|o]; cbn; auto.
  - destruct b; cbn; auto.
  - destruct (n =? 0)%Z; cbn; auto.
  - destruct (_ || _); cbn; auto.
  - destruct (String.eqb s ""); cbn; auto.
  - destruct xs; cbn; auto.
  - destruct o; cbn; auto.
Qed.

Lemma dict_lookup_other k k' v kvs :
  k ≠ k' → dict_lookup k' ((k, v) :: kvs) = dict_lookup k' kvs.
Proof.
  intros Hne. cbn. destruct (String.eqb_spec k' k); [congruence | reflexivity].
Qed.

(** X7: a key of the record that is no parameter of [__init__] changes
    nothing: with or without it the same posting is made, or the same
    exception raised. *)
Theorem Posting_init_ignores_other_keys (k : string) (v : pyval)
    (kvs : list (string * pyval)) (base : string) :
  k ∉ "base_url" :: "self" :: named_parameters →
  Posting_init (PDict ((k, v) :: kvs)) base = Posting_init (PDict kvs) base.
Proof.
  intros Hk. unfold named_parameters in Hk. unfold Posting_init, required.
  rewrite !(dict_lookup_other k) ; try reflexivity.
  all: intros ->; apply Hk; rewrite !elem_of_cons; tauto.
Qed.

Lemma Posting_init_ignores_other_keys_witness :
  Posting_init (PDict (("brand", PStr "Nintendo")
                       :: [("posting_id", PStr "A"); ("pim_id", PInt 7); ("outlet", PNone)]))
               base_mm
  = Posting_init (PDict [("posting_id", PStr "A"); ("pim_id", PInt 7); ("outlet", PNone)])
                 base_mm.
Proof.
  apply Posting_init_ignores_other_keys. unfold named_parameters.
  rewrite !elem_of_cons, elem_of_nil. intros H.
  repeat destruct H as [H|H]; try discriminate H; exact H.
Defined.

(** * Further properties of the notifier *)

(** X8: with credentials, no error, a positive count and a working
    transport, exactly one mail is sent: to [MAIL_RECEIVER], or to the sender
    when that is not set, with the count in the subject (after
    [Fundgrube: ] when sender and receiver are the same).  The marker is
    not touched. *)
Theorem new_items_mail (w : world) (new_count : Z) (posting_list : list Posting) :
  credentials w = true →
  (0 < new_count)%Z →
  smtp_failure w = None →
  ∃ m, mail_notify new_count posting_list None w = (Ok tt, deliver m w)
       ∧ mail_to m = default (default "" (environ w !! "MAIL_SENDER"))
                             (environ w !! "MAIL_RECEIVER")
       ∧ subject m = (if bool_decide (default "" (environ w !! "MAIL_SENDER") = mail_to m)
                      then "Fundgrube: " +:+ pretty new_count +:+ " new items"
                      else pretty new_count +:+ " new items")
       ∧ previous_error_file (deliver m w) = previous_error_file w.
Proof.
  unfold credentials, mail_notify. intros -> Hn Hs.
  apply Z.ltb_lt in Hn. rewrite Hn. cbn [andb orb]. rewrite Hs.
  eexists (mkMail _ _ _ _ _ _). split; [reflexivity|]. cbn.
  split; [reflexivity|]. split; reflexivity.
Qed.

Lemma new_items_mail_witness :
  ∃ m, mail_notify 2 [sample_posting "A"; sample_posting "B"] None sample_world
       = (Ok tt, deliver m sample_world)
       ∧ mail_to m = "me@example.org"
       ∧ subject m = "Fundgrube: 2 new items".
Proof.
  destruct (new_items_mail sample_world 2 [sample_posting "A"; sample_posting "B"])
    as (m & E & Hto & Hsubj & _).
  - vm_compute. reflexivity.
  - lia.
  - reflexivity.
  - exists m. split; [exact E|]. split; [exact Hto|].
    rewrite Hsubj, Hto. vm_compute. reflexivity.
Defined.

(** X9: where the marker file can be written, an error passed together with
    a positive count is reported even when the marker already holds its
    kind, and the mail carries the error only, not the postings. *)
Theorem error_reported_instead_of_new_items (w : world) (new_count : Z)
    (posting_list : list Posting) (e : exn) :
  credentials w = true →
  (0 < new_count)%Z →
  marker_writable w = true →
  smtp_failure w = None →
  ∃ m, mail_notify new_count posting_list (Some e) w
       = (Ok tt, deliver m (set_previous_error (Some (class_name e)) w))
       ∧ message_text m = exn_repr e.
Proof.
  intros Hc Hn Hd Hs.
  destruct (mail_notify_error new_count posting_list e w) as (m & Hm & E); [|exact Hd|].
  { apply wants_mail_new_kind; auto. }
  rewrite Hs in E. exists m. split; assumption.
Qed.

Lemma error_reported_instead_of_new_items_witness :
  ∃ m, mail_notify 1 [sample_posting "A"] (Some FetchError) w_marked
       = (Ok tt, deliver m w_marked)
       ∧ message_text m = "FetchError('timeout')".
Proof.
  destruct (error_reported_instead_of_new_items w_marked 1 [sample_posting "A"] FetchError)
    as (m & E & Hm).
  - vm_compute. reflexivity.
  - lia.
  - reflexivity.
  - reflexivity.
  - exists m. split; [exact E|]. rewrite Hm. vm_compute. reflexivity.
Defined.

(** X10: when the "error fixed" mail cannot be sent, the marker is gone all
    the same, and no later call without error and without new items sends
    it: the resolution is never reported. *)
Theorem fixed_mail_lost_when_send_fails (w : world) (k : string) (se : exn)
    (posting_list : list Posting) :
  credentials w = true →
  previous_error_file w = Some k →
  k ≠ "NoneType" →
  smtp_failure w = Some se →
  ∃ w1, mail_notify 0 posting_list None w = (Raise se, w1)
        ∧ previous_error_file w1 = None
        ∧ outbox w1 = outbox w
        ∧ ∀ w2 ps, previous_error_file w2 = None →
                   snd (mail_notify 0 ps None w2) = w2.
Proof.
  intros Hc Hk Hne Hs.
  destruct (mail_notify_fixed posting_list k w Hc Hk Hne) as (m & _ & E).
  rewrite Hs in E. eexists. split; [exact E|]. cbn. repeat split.
  intros w2 ps Hw2. destruct (credentials w2) eqn:Hc2.
  - rewrite mail_notify_idle_raises by assumption. reflexivity.
  - rewrite mail_notify_skip; [reflexivity|]. unfold wants_mail. rewrite Hc2. reflexivity.
Qed.

Lemma fixed_mail_lost_when_send_fails_witness :
  ∃ w1, mail_notify 0 [] None w_marked_smtp_down
        = (Raise (Exn "SMTPServerDisconnected" []), w1)
        ∧ previous_error_file w1 = None
        ∧ outbox w1 = [].
Proof.
  destruct (fixed_mail_lost_when_send_fails w_marked_smtp_down "FetchError"
              (Exn "SMTPServerDisconnected" []) [])
    as (w1 & E & Hk & Ho & _).
  - vm_compute. reflexivity.
  - reflexivity.
  - discriminate.
  - reflexivity.
  - exists w1. split; [exact E|]. split; [exact Hk | exact Ho].
Defined.

(** X11: a call of [mail_notify] sends at most one mail and changes neither
    the environment nor the results file. *)
Theorem mail_notify_frame (new_count : Z) (posting_list : list Posting)
    (error : option exn) (w : world) :
  let w' := snd (mail_notify new_count posting_list error w) in
  environ w' = environ w
  ∧ old_results_file w' = old_results_file w
  ∧ smtp_failure w' = smtp_failure w
  ∧ (outbox w' = outbox w ∨ ∃ m, outbox w' = outbox w ++ [m]).
Proof.
  unfold mail_notify.
  repeat (case_match; cbn [fst snd]; simplify_eq);
    cbn; repeat split; eauto.
Qed.

(** X12: with credentials and no marker, a call without error and without a
    positive count does not return: it takes the "error fixed" branch and
    [os.remove] raises on the file that is not there.  Nothing is changed. *)
Theorem idle_call_raises_with_credentials (w : world) (new_count : Z)
    (posting_list : list Posting) :
  credentials w = true →
  previous_error_file w = None →
  (new_count ≤ 0)%Z →
  mail_notify new_count posting_list None w = (Raise FileNotFoundError, w).
Proof.
  unfold credentials, mail_notify. intros -> -> Hn.
  apply Z.ltb_ge in Hn. rewrite Hn. reflexivity.
Qed.

Lemma idle_call_raises_with_credentials_witness :
  mail_notify 0 [] None sample_world = (Raise FileNotFoundError, sample_world).
Proof.
  apply idle_call_raises_with_credentials.
  - vm_compute. reflexivity.
  - reflexivity.
  - lia.
Defined.

(** * Further properties of the run *)

Lemma collect_findings_fetched net old_dict filter_list ps :
  fetched_postings net filter_list = Ok ps →
  Forall (λ p, hashable (posting_id p) = true) ps →
  collect_findings net old_dict filter_list
  = Ok (filter (λ p, absent_from old_dict (posting_id p) = true) ps).
Proof.
  intros Hf Hh. unfold collect_findings.
  rewrite (scan_filters _ _ _ _ _ _ Hf Hh), bind_ret. rewrite app_nil_l. reflexivity.
Qed.

Lemma filter_none {A} (P : A → Prop) `{∀ x, Decision (P x)} (l : list A) :
  Forall (λ x, ¬ P x) l → filter P l = [].
Proof.
  induction 1 as [|x l Hx _ IH]; [reflexivity|].
  rewrite filter_cons_False by exact Hx. exact IH.
Qed.

Lemma plain_id_hashable (ps : list Posting) :
  Forall (λ p, plain_id (posting_id p) = true) ps →
  Forall (λ p, hashable (posting_id p) = true) ps.
Proof.
  intros H. eapply Forall_impl; [exact H|].
  intros p Hp. cbn beta in *. destruct (posting_id p); (discriminate Hp || reflexivity).
Qed.

Lemma main_nothing_new filter_list net now w old_dict :
  load_history (old_results_file w) = Ok old_dict →
  collect_findings net old_dict filter_list = Ok [] →
  main filter_list net now w = (Ok tt, w).
Proof. unfold main. intros -> ->. reflexivity. Qed.

Lemma main_results_file filter_list net now w old_dict findings :
  load_history (old_results_file w) = Ok old_dict →
  collect_findings net old_dict filter_list = Ok findings →
  old_results_file (snd (main filter_list net now w))
  = if bool_decide (findings = []) then old_results_file w
    else save_results findings now (old_results_file w).
Proof.
  unfold main. intros -> ->. destruct findings as [|p ps]; [reflexivity|].
  cbn [List.length Nat.ltb Nat.leb]. rewrite mail_notify_keeps_results. reflexivity.
Qed.

Lemma mail_notify_new (new_count : Z) (posting_list : list Posting) (w : world) :
  (0 < new_count)%Z →
  ∃ m, message_text m
       = String.concat (" " +:+ newline)
           (map (λ post, Posting_str post +:+ ": " +:+ get_direct_url post +:+ newline)
                posting_list)
       ∧ mail_notify new_count posting_list None w
         = if credentials w
           then match smtp_failure w with
                | Some se => (Raise se, w)
                | None => (Ok tt, deliver m w)
                end
           else (Ok tt, w).
Proof.
  intros Hn. apply Z.ltb_lt in Hn. unfold mail_notify, credentials. rewrite Hn.
  cbn [orb]. rewrite andb_true_r.
  eexists (mkMail _ _ _ _ _ _). split; [reflexivity|].
  destruct (env_truthy _ && env_truthy _); reflexivity.
Qed.

(** X13: a run never writes or removes the error marker and sends at most
    one mail: [__main__] calls [mail_notify] only with new items and never
    with an error, so neither the error mail nor the "error fixed" mail is
    ever sent by the program. *)
Theorem main_keeps_marker (filter_list : list GameFilter) (net : network)
    (now : datetime) (w : world) :
  let w' := snd (main filter_list net now w) in
  previous_error_file w' = previous_error_file w
  ∧ (outbox w' = outbox w
     ∨ ∃ m findings, outbox w' = outbox w ++ [m]
                     ∧ findings ≠ [] ∧ old_results_file w' = save_results findings now (old_results_file w)
                     ∧ message_text m
                       = String.concat (" " +:+ newline)
                           (map (λ post, Posting_str post +:+ ": " +:+ get_direct_url post
                                         +:+ newline) findings)).
Proof.
  unfold main.
  destruct (load_history (old_results_file w)) as [old_dict|e]; [|cbn; auto].
  destruct (collect_findings net old_dict filter_list) as [findings|e]; [|cbn; auto].
  destruct findings as [|p ps]; [cbn; auto|].
  cbn [List.length Nat.ltb Nat.leb].
  set (w1 := set_old_results _ w).
  destruct (mail_notify_new (Z.of_nat (S (List.length ps))) (p :: ps) w1) as (m & Hm & ->);
    [lia|].
  destruct (credentials w1); [|cbn; auto].
  destruct (smtp_failure w1) as [se|]; [cbn; auto|].
  split; [reflexivity|]. right. exists m, (p :: ps).
  split; [reflexivity|]. split; [discriminate|]. split; [reflexivity | exact Hm].
Qed.

(** X14: after a run over postings whose identifiers are strings without
    carriage return, a second run that is given the same answers finds
    nothing new: it returns without writing and without sending, whatever
    else has changed but the results file. *)
Theorem second_run_finds_nothing (filter_list : list GameFilter) (net : network)
    (now now' : datetime) (w : world) (m : gmap (option string) datetime)
    (ps : list Posting) :
  header_ok (old_results_file w) →
  load_history (old_results_file w) = Ok m →
  fetched_postings net filter_list = Ok ps →
  Forall (λ p, plain_id (posting_id p) = true) ps →
  clock_ok now = true →
  ∀ w2, old_results_file w2 = old_results_file (snd (main filter_list net now w)) →
        main filter_list net now' w2 = (Ok tt, w2).
Proof.
  intros Hh Hm Hf Hstr Hclock w2 Hw2.
  apply andb_true_iff in Hclock as [Hv _].
  pose proof (plain_id_hashable _ Hstr) as Hhash.
  pose proof (collect_findings_fetched net m filter_list ps Hf Hhash) as Hc.
  rewrite (main_results_file _ _ _ _ _ _ Hm Hc) in Hw2.
  set (new := filter (λ p, absent_from m (posting_id p) = true) ps) in *.
  case_bool_decide as Hnew.
  - apply (main_nothing_new _ _ _ _ m); [rewrite Hw2; exact Hm|].
    rewrite Hc. f_equal. exact Hnew.
  - assert (Hm' : load_history (old_results_file w2)
                  = Ok (foldl (λ m p, <[read_key p := now]> m) m new)).
    { rewrite Hw2, load_history_header by (apply save_results_header_ok; exact Hh).
      rewrite records_save_results by exact Hh.
      rewrite load_history_header in Hm by exact Hh.
      rewrite filter_app, filter_result_rows, for_each_app, Hm, bind_ret.
      apply read_new_rows. exact Hv. }
    apply (main_nothing_new _ _ _ _ _ Hm').
    rewrite (collect_findings_fetched _ _ _ _ Hf Hhash). f_equal.
    apply filter_none. rewrite Forall_forall in Hstr |- *.
    intros p Hp Habs. specialize (Hstr p Hp).
    destruct (posting_id p) as [| | | |s| |] eqn:Hid; try discriminate Hstr.
    cbn in Habs. apply bool_decide_eq_true in Habs.
    rewrite lookup_foldl_insert in Habs. case_bool_decide as Hin; [discriminate|].
    apply Hin. apply list_elem_of_fmap. exists p. split.
    + unfold read_key. rewrite Hid. cbn [csv_cell py_str].
      cbn [plain_id] in Hstr.
      rewrite read_text_no_cr by exact Hstr. reflexivity.
    + apply list_elem_of_filter. split; [|exact Hp].
      rewrite Hid. cbn. apply bool_decide_eq_true. exact Habs.
Qed.

Lemma second_run_finds_nothing_witness :
  main [sample_filter] net_abca sample_now
       (snd (main [sample_filter] net_abca sample_now sample_world))
  = (Ok tt, snd (main [sample_filter] net_abca sample_now sample_world)).
Proof.
  eapply (second_run_finds_nothing [sample_filter] net_abca sample_now sample_now
            sample_world ∅).
  - left. reflexivity.
  - reflexivity.
  - vm_compute. reflexivity.
  - repeat constructor.
  - vm_compute. reflexivity.
  - reflexivity.
Defined.

Lemma run_lines_prefix (w : world) (i : run_input) :
  default [] (old_results_file w) `prefix_of` default [] (old_results_file (run w i)).
Proof.
  destruct (run_results_file w i) as [-> | (old_dict & findings & _ & _ & _ & ->)];
    [reflexivity|].
  rewrite save_results_rows. destruct (old_results_file w) as [rows|]; cbn.
  - apply prefix_app_r. reflexivity.
  - apply prefix_nil.
Qed.

(** X15: over any sequence of runs the results file only grows at its end:
    the lines it has are never changed, removed or reordered. *)
Theorem runs_append_only (w : world) (inputs : list run_input) :
  default [] (old_results_file w) `prefix_of` default [] (old_results_file (runs w inputs)).
Proof.
  revert w. induction inputs as [|i rest IH]; intros w; [reflexivity|].
  cbn [runs foldl]. etransitivity; [apply run_lines_prefix | apply IH].
Qed.

Lemma scan_post_eq old_dict base findings post :
  scan_post old_dict base findings post
  = Posting_init post base ≫= λ p,
      history_get old_dict (posting_id p) ≫= λ entry,
        Ok (match entry with
            | None => findings ++ [p]
            | Some _ => findings
            end).
Proof. reflexivity. Qed.

Lemma scan_posts_fail old_dict base posting_list : ∀ findings e,
  construct_all base posting_list = Raise e →
  ∃ e', for_each (scan_post old_dict base) findings posting_list = Raise e'.
Proof.
  induction posting_list as [|post rest IH]; intros findings e Hc; [discriminate|].
  cbn [construct_all] in Hc. rewrite for_each_cons, scan_post_eq.
  destruct (Posting_init post base) as [p|e1]; [|eexists; reflexivity].
  rewrite bind_ret in Hc; rewrite bind_ret.
  destruct (history_get old_dict (posting_id p)) as [entry|e2]; [|eexists; reflexivity].
  rewrite !bind_ret.
  destruct (construct_all base rest) as [ps|e3]; [discriminate|].
  eapply IH. reflexivity.
Qed.

Lemma scan_endpoint_counter net old_dict fil search_text st base st' :
  scan_endpoint net old_dict fil search_text st base = Ok st' → fst st' = S (fst st).
Proof.
  unfold scan_endpoint. intros E.
  apply bind_Ok in E as (js & _ & E). apply bind_Ok in E as (pl & _ & E).
  apply bind_Ok in E as (fs & _ & [= <-]). reflexivity.
Qed.

Lemma scan_endpoint_fail net old_dict fil search_text n findings base e :
  fetch_endpoint net fil search_text n base = Raise e →
  ∃ e', scan_endpoint net old_dict fil search_text (n, findings) base = Raise e'.
Proof.
  unfold fetch_endpoint, scan_endpoint. cbn [fst snd]. intros E.
  destruct (net n _) as [js|e1]; [|eexists; reflexivity]. rewrite bind_ret in E; rewrite bind_ret.
  destruct (postings_of js) as [pl|e2]; [|eexists; reflexivity]. rewrite bind_ret in E; rewrite bind_ret.
  destruct (scan_posts_fail old_dict base pl findings e E) as [e' ->].
  eexists. reflexivity.
Qed.

Lemma scan_filter_counter net old_dict st fil st' :
  scan_filter net old_dict st fil = Ok st' → fst st' = S (S (fst st)).
Proof.
  rewrite scan_filter_eq. intros E. apply bind_Ok in E as (search_text & _ & E).
  rewrite for_each_cons in E. apply bind_Ok in E as (st1 & E1 & E).
  rewrite for_each_cons in E. apply bind_Ok in E as (st2 & E2 & E).
  cbn in E. injection E as <-.
  apply scan_endpoint_counter in E1, E2. congruence.
Qed.

Lemma scan_filters_fail net old_dict filter_list : ∀ n findings e,
  fetched_from net n filter_list = Raise e →
  ∃ e', for_each (scan_filter net old_dict) (n, findings) filter_list = Raise e'.
Proof.
  induction filter_list as [|fil rest IH]; intros n findings e Hf; [discriminate|].
  cbn [fetched_from] in Hf. rewrite for_each_cons.
  destruct (scan_filter net old_dict (n, findings) fil) as [[n' fs']|e1] eqn:Es;
    [|eexists; reflexivity].
  rewrite bind_ret. pose proof (scan_filter_counter _ _ _ _ _ Es) as Hn. cbn in Hn. subst n'.
  rewrite scan_filter_eq in Es.
  destruct (py_quote (search fil)) as [search_text|e0]; [|discriminate].
  rewrite bind_ret in Hf. rewrite bind_ret in Es.
  rewrite for_each_cons in Es. apply bind_Ok in Es as ([n1 fs1] & E1 & Es).
  pose proof (scan_endpoint_counter _ _ _ _ _ _ _ E1) as Hn1. cbn in Hn1. subst n1.
  rewrite for_each_cons in Es. apply bind_Ok in Es as (st2 & E2 & _).
  destruct (fetch_endpoint net fil search_text n base_mm) as [mm|e2] eqn:Emm.
  2: { destruct (scan_endpoint_fail net old_dict fil search_text n findings base_mm e2 Emm)
         as [e' He']. congruence. }
  rewrite bind_ret in Hf.
  destruct (fetch_endpoint net fil search_text (S n) base_sa) as [sa|e3] eqn:Esa.
  2: { destruct (scan_endpoint_fail net old_dict fil search_text (S n) fs1 base_sa e3 Esa)
         as [e' He']. congruence. }
  rewrite bind_ret in Hf.
  destruct (fetched_from net (S (S n)) rest) as [more|e4] eqn:Em; [discriminate|].
  eapply IH. exact Em.
Qed.

(** X16: when a request of the run fails, or a response cannot be turned
    into postings, the run ends with an exception and has written nothing
    and sent nothing, whatever the earlier responses held. *)
Theorem failed_fetch_changes_nothing (filter_list : list GameFilter) (net : network)
    (now : datetime) (w : world) (e : exn) :
  fetched_postings net filter_list = Raise e →
  ∃ e', main filter_list net now w = (Raise e', w).
Proof.
  intros Hf. unfold main.
  destruct (load_history (old_results_file w)) as [old_dict|e0]; [|eexists; reflexivity].
  unfold collect_findings.
  destruct (scan_filters_fail net old_dict filter_list 0%nat [] e Hf) as [e' ->].
  eexists. reflexivity.
Qed.

Lemma failed_fetch_changes_nothing_witness :
  ∃ e', main [sample_filter] net_second_fails sample_now sample_world
        = (Raise e', sample_world).
Proof.
  apply (failed_fetch_changes_nothing [sample_filter] net_second_fails sample_now
           sample_world (Exn "ConnectionError" [])).
  vm_compute. reflexivity.
Defined.

(** X17: when the transport fails, the findings of the run are on record
    all the same and no mail went out; by X14 the next run does not find
    them new, so they are never notified. *)
Theorem findings_saved_when_send_fails (filter_list : list GameFilter) (net : network)
    (now : datetime) (w : world) (old_dict : gmap (option string) datetime)
    (findings : list Posting) (se : exn) :
  load_history (old_results_file w) = Ok old_dict →
  collect_findings net old_dict filter_list = Ok findings →
  findings ≠ [] →
  credentials w = true →
  smtp_failure w = Some se →
  main filter_list net now w
  = (Raise se, set_old_results (save_results findings now (old_results_file w)) w).
Proof.
  intros Hl Hc Hne Hcred Hs. unfold main. rewrite Hl, Hc.
  destruct findings as [|p ps]; [contradiction|].
  cbn [List.length Nat.ltb Nat.leb].
  set (w1 := set_old_results _ w).
  destruct (mail_notify_new (Z.of_nat (S (List.length ps))) (p :: ps) w1) as (m & _ & ->);
    [lia|].
  change (credentials w1) with (credentials w). rewrite Hcred.
  change (smtp_failure w1) with (smtp_failure w). rewrite Hs. reflexivity.
Qed.

Lemma findings_saved_when_send_fails_witness :
  ∃ findings,
    main [sample_filter] net_abcd sample_now sample_world_smtp_down
    = (Raise (Exn "SMTPServerDisconnected" []),
       set_old_results (save_results findings sample_now None) sample_world_smtp_down)
    ∧ List.length findings = 4%nat.
Proof.
  eexists. split.
  - eapply (findings_saved_when_send_fails [sample_filter] net_abcd sample_now
              sample_world_smtp_down ∅).
    + reflexivity.
    + vm_compute. reflexivity.
    + discriminate.
    + vm_compute. reflexivity.
    + reflexivity.
  - reflexivity.
Defined.

(** X18: on a store that is absent or starts with the header line, what a
    run adds to the identifiers on record is one entry for every fetched
    posting whose identifier is no key of the history read at the start,
    repeats included, in fetch order; the entry is the identifier as it is
    read back. *)
Theorem run_records_each_new_occurrence (filter_list : list GameFilter) (net : network)
    (now : datetime) (w : world) (m : gmap (option string) datetime) (ps : list Posting) :
  header_ok (old_results_file w) →
  load_history (old_results_file w) = Ok m →
  fetched_postings net filter_list = Ok ps →
  Forall (λ p, hashable (posting_id p) = true) ps →
  stored_ids (old_results_file (snd (main filter_list net now w)))
  = stored_ids (old_results_file w)
    ++ map read_key (filter (λ p, absent_from m (posting_id p) = true) ps).
Proof.
  intros Hh Hm Hf Hhash.
  pose proof (collect_findings_fetched net m filter_list ps Hf Hhash) as Hc.
  rewrite (main_results_file _ _ _ _ _ _ Hm Hc).
  case_bool_decide as Hnew.
  - rewrite Hnew. cbn [map]. rewrite app_nil_r. reflexivity.
  - apply stored_ids_save_results. exact Hh.
Qed.

Lemma run_records_each_new_occurrence_witness :
  stored_ids (old_results_file (snd (main [sample_filter] net_abca sample_now sample_world)))
  = [Some "A"; Some "B"; Some "C"; Some "A"].
Proof.
  eapply eq_trans;
    [eapply (run_records_each_new_occurrence [sample_filter] net_abca sample_now
               sample_world ∅)|].
  - left. reflexivity.
  - reflexivity.
  - vm_compute. reflexivity.
  - repeat constructor.
  - vm_compute. reflexivity.
Defined.

(** * The filter configuration *)

Lemma comprehension_Ok {A B} (f : A → result B) (l : list A) (ys : list B) :
  comprehension f l = Ok ys → Forall2 (λ x y, f x = Ok y) l ys.
Proof.
  revert ys. induction l as [|x l IH]; intros ys E.
  - injection E as <-. constructor.
  - cbn [comprehension] in E. apply bind_Ok in E as (y & Hy & E).
    apply bind_Ok in E as (ys' & Hys & [= <-]). constructor; auto.
Qed.

Lemma comprehension_first_raise {A B} (f : A → result B) (pre post : list A) (x : A)
    (e : exn) :
  Forall (λ x, ∃ y, f x = Ok y) pre →
  f x = Raise e →
  comprehension f (pre ++ x :: post) = Raise e.
Proof.
  intros Hpre Hx. induction Hpre as [|x' pre [y Hy] _ IH]; cbn [app comprehension].
  - rewrite Hx. reflexivity.
  - rewrite Hy, bind_ret, IH. reflexivity.
Qed.

Lemma read_game_Ok (item : pyval) (fil : GameFilter) :
  read_game item = Ok fil →
  ∃ kvs, item = PDict kvs
         ∧ dict_lookup "include" kvs = Some (search fil)
         ∧ filter_price fil = dict_get "price" kvs
         ∧ dict_lookup "search" kvs = None.
Proof.
  destruct item as [| | | | | |kvs]; try discriminate. unfold read_game.
  destruct (dict_lookup "include" kvs) as [include|] eqn:Hi; [|discriminate].
  destruct (dict_lookup "search" kvs) as [s|] eqn:Hs; [discriminate|].
  destruct (bool_decide _ || bool_decide _); [discriminate|].
  intros [= <-]. exists kvs. cbn. auto.
Qed.

(** X19: from a configuration that is a list, [read_games_from_json] makes
    one filter per entry, in the order of the entries: the search text is
    the entry's [include], the price its [price], or [None] when it has
    none; no entry has a key [search]. *)
Theorem read_games_one_filter_per_entry (items : list pyval) (fs : list GameFilter) :
  read_games_from_json (PList items) = Ok fs →
  Forall2 (λ item fil, ∃ kvs, item = PDict kvs
                              ∧ dict_lookup "include" kvs = Some (search fil)
                              ∧ filter_price fil = dict_get "price" kvs
                              ∧ dict_lookup "search" kvs = None)
          items fs.
Proof.
  unfold read_games_from_json. cbn [py_list]. rewrite bind_ret. intros E.
  apply comprehension_Ok in E. eapply Forall2_impl; [exact E|].
  intros item fil. apply read_game_Ok.
Qed.

Lemma read_games_one_filter_per_entry_witness :
  Forall2 (λ item fil, ∃ kvs, item = PDict kvs
                              ∧ dict_lookup "include" kvs = Some (search fil)
                              ∧ filter_price fil = dict_get "price" kvs
                              ∧ dict_lookup "search" kvs = None)
          [PDict [("include", PStr "Zelda"); ("price", PInt 30)];
           PDict [("include", PStr "Mario Kart")]]
          [mkGameFilter (PStr "Zelda") (PInt 30); mkGameFilter (PStr "Mario Kart") PNone].
Proof.
  apply read_games_one_filter_per_entry. vm_compute. reflexivity.
Defined.

(** X20: the first entry of the configuration that is no object, has no
    [include], or has a key [search] or [self] ends the program with that
    entry's exception ([KeyError] for the missing [include], [TypeError]
    otherwise) before anything is read, requested, written or sent. *)
Theorem bad_config_entry_stops_program (pre post : list pyval) (item : pyval) (e : exn)
    (net : network) (now : datetime) (w : world) :
  Forall (λ x, ∃ fil, read_game x = Ok fil) pre →
  read_game item = Raise e →
  (e = KeyError "include" ∨ e = TypeError)
  ∧ program (Ok (PList (pre ++ item :: post))) net now w = (Raise e, w).
Proof.
  intros Hpre He. split.
  - destruct item as [| | | | | |kvs]; try (injection He as <-; auto).
    unfold read_game in He.
    destruct (dict_lookup "include" kvs); [|injection He as <-; auto].
    destruct (bool_decide _ || bool_decide _); [injection He as <-; auto | discriminate].
  - unfold program. rewrite bind_ret. unfold read_games_from_json. cbn [py_list].
    rewrite bind_ret, (comprehension_first_raise _ _ _ _ _ Hpre He). reflexivity.
Qed.

Lemma bad_config_entry_stops_program_witness :
  program (Ok bad_config) net_same sample_now sample_world = (Raise TypeError, sample_world).
Proof.
  apply (bad_config_entry_stops_program
           [PDict [("include", PStr "Zelda")]] []
           (PDict [("include", PStr "Mario"); ("search", PStr "Kart")]) TypeError
           net_same sample_now sample_world).
  - constructor; [|constructor]. eexists. vm_compute. reflexivity.
  - vm_compute. reflexivity.
Defined.

(** * The search text in the URL *)

Lemma chars_app (a b : string) :
  list_ascii_of_string (a +:+ b) = list_ascii_of_string a ++ list_ascii_of_string b.
Proof.
  induction a as [|x a IH]; [reflexivity|].
  change (x :: list_ascii_of_string (a +:+ b)
          = x :: (list_ascii_of_string a ++ list_ascii_of_string b)).
  rewrite IH. reflexivity.
Qed.

Lemma chars_concat (l : list string) :
  list_ascii_of_string (String.concat "" l) = List.concat (map list_ascii_of_string l).
Proof.
  induction l as [|x l IH]; [reflexivity|].
  destruct l as [|y l].
  - cbn. rewrite app_nil_r. reflexivity.
  - change (String.concat "" (x :: y :: l)) with (x +:+ ("" +:+ String.concat "" (y :: l))).
    rewrite chars_app. change ("" +:+ ?s) with s. rewrite IH. reflexivity.
Qed.

Lemma quote_chars (s : string) :
  quote s = String.concat "" (map quote_char (list_ascii_of_string s)).
Proof. reflexivity. Qed.

Lemma quote_char_safe (c : ascii) :
  forallb url_safe (list_ascii_of_string (quote_char c)) = true.
Proof. destruct c as [[] [] [] [] [] [] [] []]; reflexivity. Qed.

(** X21: [quote] lets only letters, digits and [_.-~] through and writes
    every other byte as a percent escape: its result holds no character
    outside these and [%], and a text made of the former is left as it
    is. *)
Theorem quote_only_safe_characters (s : string) :
  Forall (λ c, url_safe c = true) (list_ascii_of_string (quote s))
  ∧ (Forall (λ c, always_safe c = true) (list_ascii_of_string s) → quote s = s).
Proof.
  rewrite quote_chars. split.
  - rewrite chars_concat.
    induction (list_ascii_of_string s) as [|c l IH]; [constructor|].
    cbn [map List.concat]. apply Forall_app. split; [|exact IH].
    apply Forall_forall. intros x Hx.
    pose proof (quote_char_safe c) as Hc. rewrite forallb_forall in Hc.
    apply Hc. apply list_elem_of_In. exact Hx.
  - intros Hs. rewrite <- (string_of_list_ascii_of_string s) at 2.
    rewrite <- (string_of_list_ascii_of_string (String.concat _ _)).
    f_equal. rewrite chars_concat.
    induction Hs as [|c l Hc _ IH]; [reflexivity|].
    cbn [map List.concat]. unfold quote_char at 1. rewrite Hc, IH. reflexivity.
Qed.
